(** * Base58 and Base58Check: a shallow embedding of [src/base58.cpp]

    The byte/text codec of [base58.cpp] is embedded function by function:
    - [unsigned char] values are [Byte.byte]; the working buffers [b58] and
      [b256] hold their digits as [Z], stored modulo 256; the [int carry] is
      a [Z] wrapped to 32 bits, with C's truncating division;
    - a [const char*] is the list of characters it points to; reading at the
      end of the list yields the terminating NUL, and an embedded NUL ends the
      C string as it does in C;
    - [std::string] is [String.string];
    - [assert] is an explicit outcome [AssertFail] of the [result] monad;
    - an output parameter ([std::vector<unsigned char>& vch]) is passed in
      and returned;
    - vector sizes and the [int zeroes] counter are [nat] (inputs of 2^31
      bytes or more are out of the model's reach).  *)

From Stdlib.Strings Require Import Ascii String Byte.
From Stdlib Require Import List NArith ZArith Lia Bool Arith.
Import ListNotations.

Open Scope Z_scope.

(** ** Outcomes: a function either trips an [assert] or returns *)

Inductive result (A : Type) : Type :=
| AssertFail : result A
| Ret : A -> result A.

Arguments AssertFail {A}.
Arguments Ret {A} _.

Definition bind {A B : Type} (m : result A) (f : A -> result B) : result B :=
  match m with
  | AssertFail => AssertFail
  | Ret a => f a
  end.

Notation "x <- m ;; k" := (bind m (fun x => k))
  (at level 61, m at next level, right associativity).
Notation "' pat <- m ;; k" := (bind m (fun x => match x with pat => k end))
  (at level 61, pat pattern, m at next level, right associativity).

(** ** Bytes and characters *)

Definition Z_of_byte (b : byte) : Z := Z.of_N (Byte.to_N b).

(** Storing an [int] into an [unsigned char] keeps it modulo 256. *)
Definition byte_of_Z (z : Z) : byte :=
  match Byte.of_N (Z.to_N (z mod 256)) with
  | Some b => b
  | None => x00
  end.

Definition NUL : ascii := Ascii.zero.

Definition is_nul (c : ascii) : bool := Ascii.eqb c NUL.

(** [isspace] of the C locale: space, and the controls [\t \n \v \f \r]. *)
Definition isspace (c : ascii) : bool :=
  let n := nat_of_ascii c in
  (Nat.eqb n 32 || (Nat.leb 9 n && Nat.leb n 13))%bool.

(** [*psz]: the character under the cursor, NUL at the end of the text. *)
Definition deref (psz : list ascii) : ascii := hd NUL psz.

(** [strlen]: characters before the first NUL. *)
Fixpoint strlen (psz : list ascii) : nat :=
  match psz with
  | [] => 0%nat
  | c :: rest => if is_nul c then 0%nat else S (strlen rest)
  end.

(** [strchr(s, c)] as the offset of the first [c] in [s]; like the C
    function it finds the terminator when asked for NUL. *)
Fixpoint strchr (s : list ascii) (c : ascii) : option nat :=
  match s with
  | [] => if is_nul c then Some 0%nat else None
  | x :: rest =>
      if Ascii.eqb x c then Some 0%nat
      else if is_nul x then None
      else option_map S (strchr rest c)
  end.

(** All alphanumeric characters except for "0", "I", "O", and "l" *)
Definition pszBase58 : list ascii :=
  list_ascii_of_string
    "123456789ABCDEFGHJKLMNPQRSTUVWXYZabcdefghijkmnopqrstuvwxyz".

(** [pszBase58[d]]; offset 58 is the terminator. *)
Definition pszBase58_at (d : Z) : ascii := nth (Z.to_nat d) pszBase58 NUL.

(** ** The shared loop shapes *)

(** [while (cond( *psz)) psz++;] - every condition used below is false on
    NUL, so the loop also stops at the end of the text. *)
Fixpoint skip_while (cond : ascii -> bool) (psz : list ascii) : list ascii :=
  match psz with
  | [] => []
  | c :: rest => if cond c then skip_while cond rest else psz
  end.

(** The number of iterations of the same loop. *)
Fixpoint count_while (cond : ascii -> bool) (psz : list ascii) : nat :=
  match psz with
  | [] => 0%nat
  | c :: rest => if cond c then S (count_while cond rest) else 0%nat
  end.

Definition leading_space (c : ascii) : bool := (negb (is_nul c) && isspace c)%bool.
Definition is_one (c : ascii) : bool := Ascii.eqb c "1"%char.

(** Machine arithmetic: a 32-bit [int] (two's complement wrap-around), C's
    truncating [%] and [/], and the store of an [int] into an
    [unsigned char]. *)
Definition int32 (z : Z) : Z := (z + 2 ^ 31) mod 2 ^ 32 - 2 ^ 31.
Definition uchar (z : Z) : Z := z mod 256.

(** The inner [for] over the reverse iterator: starting at the last digit,
    [carry += mult * ( *it); *it = carry % base; carry /= base].  Returns the
    updated buffer and the carry left after the first element. *)
Fixpoint mul_add (base mult : Z) (buf : list Z) (carry : Z) : list Z * Z :=
  match buf with
  | [] => ([], carry)
  | x :: xs =>
      let '(xs', c) := mul_add base mult xs carry in
      let c := int32 (c + int32 (mult * x)) in
      (uchar (Z.rem c base) :: xs', Z.quot c base)
  end.

(** [while (it != end && *it == 0) it++;] on a digit buffer. *)
Fixpoint skip_zeroes (buf : list Z) : list Z :=
  match buf with
  | [] => []
  | x :: xs => if x =? 0 then skip_zeroes xs else buf
  end.

(** ** DecodeBase58 *)

(** The character loop.  [Ret None] is [return false] on a character that
    [strchr] does not find; [Ret (Some (psz, b256))] leaves the loop at a NUL
    or a space with the cursor and the buffer. *)
Fixpoint DecodeBase58_loop (psz : list ascii) (b256 : list Z)
  : result (option (list ascii * list Z)) :=
  match psz with
  | [] => Ret (Some ([], b256))
  | c :: rest =>
      if (is_nul c || isspace c)%bool then Ret (Some (psz, b256))
      else
        match strchr pszBase58 c with
        | None => Ret None
        | Some ch =>
            let '(b256', carry) := mul_add 256 58 b256 (Z.of_nat ch) in
            if carry =? 0 then DecodeBase58_loop rest b256' else AssertFail
        end
  end.

(** [bool DecodeBase58(const char* psz, std::vector<unsigned char>& vch)]:
    the returned pair is the [bool] and the final [vch]. *)
Definition DecodeBase58 (psz : list ascii) (vch : list byte)
  : result (bool * list byte) :=
  let psz := skip_while leading_space psz in
  let zeroes := count_while is_one psz in
  let psz := skip_while is_one psz in
  let b256 := repeat 0 (strlen psz * 733 / 1000 + 1)%nat in
  r <- DecodeBase58_loop psz b256 ;;
  match r with
  | None => Ret (false, vch)
  | Some (psz, b256) =>
      let psz := skip_while isspace psz in
      if negb (is_nul (deref psz)) then Ret (false, vch)
      else
        Ret (true, repeat x00 zeroes ++ map byte_of_Z (skip_zeroes b256))
  end.

(** [bool DecodeBase58(const std::string& str, ...)], through [c_str()]. *)
Definition DecodeBase58_str (str : string) (vchRet : list byte)
  : result (bool * list byte) :=
  DecodeBase58 (list_ascii_of_string str) vchRet.

(** ** EncodeBase58 *)

Definition is_x00 (b : byte) : bool := Byte.eqb b x00.

Fixpoint count_zero_bytes (p : list byte) : nat :=
  match p with
  | [] => 0%nat
  | b :: rest => if is_x00 b then S (count_zero_bytes rest) else 0%nat
  end.

Fixpoint skip_zero_bytes (p : list byte) : list byte :=
  match p with
  | [] => []
  | b :: rest => if is_x00 b then skip_zero_bytes rest else p
  end.

(** The byte loop [while (pbegin != pend)]. *)
Fixpoint EncodeBase58_loop (p : list byte) (b58 : list Z) : result (list Z) :=
  match p with
  | [] => Ret b58
  | b :: rest =>
      let '(b58', carry) := mul_add 58 256 b58 (Z_of_byte b) in
      if carry =? 0 then EncodeBase58_loop rest b58' else AssertFail
  end.

(** [std::string EncodeBase58(const unsigned char* pbegin, pend)], also
    the [std::vector] overload, which passes the whole vector. *)
Definition EncodeBase58 (vch : list byte) : result string :=
  let zeroes := count_zero_bytes vch in
  let p := skip_zero_bytes vch in
  let b58 := repeat 0 (length p * 138 / 100 + 1)%nat in
  b58 <- EncodeBase58_loop p b58 ;;
  Ret (string_of_list_ascii
         (repeat "1"%char zeroes ++ map pszBase58_at (skip_zeroes b58))).

(** ** Base58Check, the versioned container and its two specialisations *)

Fixpoint bytes_eqb (a b : list byte) : bool :=
  match a, b with
  | [], [] => true
  | x :: a', y :: b' => (Byte.eqb x y && bytes_eqb a' b')%bool
  | _, _ => false
  end.

(** The roles under which [CChainParams::Base58Prefix] is queried here. *)
Inductive Base58Type : Set := PUBKEY_ADDRESS | SCRIPT_ADDRESS | SECRET_KEY.

Record CChainParams : Type := { Base58Prefix : Base58Type -> list byte }.

(** [class CBase58Data]: the version byte(s) and the payload. *)
Record CBase58Data : Type := {
  vchVersion : list byte;
  vchData : list byte
}.

(** Modelled from the spec: the default argument of
    [CBase58Data::SetString(const char*, unsigned int nVersionBytes)] is
    declared in base58.h, which is not part of the sources; the version is
    one byte for addresses and secret keys. *)
Definition nVersionBytes_default : nat := 1.

(** The literals of the [if]/[else if] chain of [CBitcoinAddress::IsValid()],
    in source order. *)
Definition disabled_addresses : list string :=
    ["BCcBZ6B5sTtZPS4FhJ2PaToAayNahvKeKb";
     "BN361g4da5japPhLx7wWqc11HxiVPbdyeF";
     "BKKnskrXJHoNGGDcgguWQoWWUi7LjBq13b";
     "BCdxPTgRkypzckZSM4xNMsRELJfCT7nDWF";
     "BGkhUL365iHCkyFW9jEQk8bL25ydNR6sca";
     "BKVdUtiXPMCZAJ7fA5SExkfdDk5eeZEAwy";
     "BSWAQpFvvKLTvhm6SmPFNmKqYChQgBjUBN";
     "B7j6hRMhwFt1XmSgqBKW8Y3X9G9qxF7Ejc";
     "BApTS1gS3sTuLzQxPC7EdowKrM68uMkhML";
     "BTBhrSJ5bogWjgpvyiz7RZ6krnmrt8RsuK";
     "BQVW7gDSvLus3wcrzCfN6ZWERs3buoLdNN";
     "BBtQEdH62gQeqY72qkHohLhfd2DtFcXXbz";
     "BFx4QfBMVCVC114tRNec6QXa7YkbUCTPs6";
     "B6khfsLHp8u3aKwwYPqGxBwW4pkbQSWiJ1";
     "BJoPTtpLC3KGjaKX7TRkqvJj9VwEy1DiYY";
     "BPTJkyTa6i8ugKwBoVPzT6hW9j2Es5H8qZ";
     "BLBBUjqoro3AJLTMrYyog1HrgV7NRaMgZE";
     "B9a7Ghg6XPAiRyV414pGhk8vptFopiqbmk";
     "B75B3UcYRm7We2YnRGPnZuEKWgELqw4pBL";
     "BCFnH2vSJ68ykvttcDm3etU2HYaftVzLr5";
     "B8EmGwSEq1ssYpvpQCQVG6NKDARNKpQ4wP";
     "BHshwsJnbz78uobuNM2witARiAty6BGP2Z";
     "BD5SfecatHpb9UqAQ2Aa7odDMKe7PQ9EnP";
     "BT7HaPWCm8P3LhTDUyqJxMSZakRQAgCnJi";
     "BQe7iKAGtGd8Z94AaXEebBLP3PmHXjk717";
     "BQ1dzMP2q2NgVqVUFqKoRK14jVjw842ew8";
     "BJPXescum2GUaYb94GVDSSZvSth75tPjEj";
     "BA4gm1gUxiua3cqmpPd7XxxGyiPhYp8cYX";
     "BD8AWJfPdPsWdyy7WhYkohVnYP74kbtomH";
     "BR3tfmAbqJoxXMBKHME6VXebFMu3ChQUxC";
     "BNvtKPSaMgbsCFYBaS8TaLjeUD5bw5jkwQ";
     "BEymBACGirRfvmUE883jgyGiaCPzPKMD8p";
     "BRLZzi4oRzwawtQeXJVRRG5rbsusb2Z3wJ";
     "BPr5TUt8jC2LnjcSFn3DGMuRZbDMdrrhgx";
     "BQKEgmKbyRBmNUeZs18k5BkdNtszFPb6uQ";
     "BJhbfUmTcEVaohpdR4cCVHc6WvkF4UFjHc";
     "BBEMde2Ts96YyCbrgaYs3TaCaPuQSq6h9d";
     "BCVVhnq1XPuH3UQy8soSqNjrtNfz9HGQYW";
     "BA8K4Yi9MwrTvasTqf8iYeSyxBKVh5VXc5";
     "B581HmueeRTDVFusZMbnnVcYmdGdauBQJ9";
     "BEdMd2aC1V4zrAjZYBYT6o6sfdcMmEUeSz";
     "BRgbrahbjeuCKz58DKDiJWin8vhSch38Yx";
     "BDzeDLvJZxwF1kNLcTGK3YSYre5MaKA566";
     "B7B1hua6wKzcxYXjz2JpSxdTcS52hkkCBw";
     "BRYhT1HjmgB1i7N56umYgFTrEWbTZUZCay";
     "BDjzrgBzd5yZqQzF3VRLM5BndVFZCEGfhL";
     "BCaMsajgcks9b2Agm8gyxQb6j1mmSSQ4Q4";
     "BK8e3WnvSEXMcCXdFWoyLxZGkJynZnDNKU";
     "BEiJVJfvfY8MDwCA7Zgy6z8RaL6pGwDxpv";
     "B53ZLPzbXftcxV5gQTTRJV4RiA6F3ma77m"]%string.

Section Base58Check.

(** [Hash(begin, end)] of hash.h, as the bytes of the [uint256] it returns
    in memory order; only the first four are read. *)
Variable Hash : list byte -> list byte.

(** [Params()], the selected chain parameters. *)
Variable Params : CChainParams.

Definition EncodeBase58Check (vchIn : list byte) : result string :=
  let vch := vchIn in
  let hash := Hash vch in
  let vch := vch ++ firstn 4 hash in
  EncodeBase58 vch.

(** [bool DecodeBase58Check(const char* psz, std::vector<unsigned char>& vchRet)] *)
Definition DecodeBase58Check (psz : list ascii) (vchRet : list byte)
  : result (bool * list byte) :=
  '(ok, vchRet) <- DecodeBase58 psz vchRet ;;
  if (negb ok || (length vchRet <? 4)%nat)%bool then Ret (false, [])
  else
    let hash := Hash (firstn (length vchRet - 4) vchRet) in
    if negb (bytes_eqb (firstn 4 hash) (skipn (length vchRet - 4) vchRet))
    then Ret (false, [])
    else Ret (true, firstn (length vchRet - 4) vchRet).

Definition DecodeBase58Check_str (str : string) (vchRet : list byte)
  : result (bool * list byte) :=
  DecodeBase58Check (list_ascii_of_string str) vchRet.

(** [CBase58Data::SetData]: the payload is copied as given. *)
Definition SetData (vchVersionIn : list byte) (pdata : list byte) : CBase58Data :=
  {| vchVersion := vchVersionIn; vchData := pdata |}.

(** [bool CBase58Data::SetString(const char* psz, unsigned int nVersionBytes)]
    on the object [self]; returns the [bool] and the object afterwards.
    [OPENSSL_cleanse] only scrubs the local [vchTemp]. *)
Definition SetString (self : CBase58Data) (psz : list ascii) (nVersionBytes : nat)
  : result (bool * CBase58Data) :=
  let vchTemp := [] in
  '(rc58, vchTemp) <- DecodeBase58Check psz vchTemp ;;
  if (negb rc58 || (length vchTemp <? nVersionBytes)%nat)%bool then
    Ret (false, {| vchVersion := []; vchData := [] |})
  else
    Ret (true, {| vchVersion := firstn nVersionBytes vchTemp;
                  vchData := skipn nVersionBytes vchTemp |}).

(** [std::string CBase58Data::ToString() const] *)
Definition ToString (self : CBase58Data) : result string :=
  let vch := vchVersion self in
  let vch := vch ++ vchData self in
  EncodeBase58Check vch.

(** [bool CBitcoinAddress::IsValid(const CChainParams& params) const] *)
Definition CBitcoinAddress_IsValid_params (self : CBase58Data) (params : CChainParams)
  : bool :=
  let fCorrectSize := (length (vchData self) =? 20)%nat in
  let fKnownVersion :=
    (bytes_eqb (vchVersion self) (Base58Prefix params PUBKEY_ADDRESS)
     || bytes_eqb (vchVersion self) (Base58Prefix params SCRIPT_ADDRESS))%bool in
  (fCorrectSize && fKnownVersion)%bool.

(** [bool CBitcoinAddress::IsValid() const]: the text form is first looked
    up among the disabled wallets. *)
Definition CBitcoinAddress_IsValid (self : CBase58Data) : result bool :=
  address <- ToString self ;;
  if existsb (String.eqb address) disabled_addresses then Ret false
  else Ret (CBitcoinAddress_IsValid_params self Params).

(** [bool CBitcoinSecret::IsValid() const] *)
Definition CBitcoinSecret_IsValid (self : CBase58Data) : bool :=
  let fExpectedFormat :=
    ((length (vchData self) =? 32)%nat
     || ((length (vchData self) =? 33)%nat
         && Byte.eqb (nth 32 (vchData self) x00) x01))%bool in
  let fCorrectVersion :=
    bytes_eqb (vchVersion self) (Base58Prefix Params SECRET_KEY) in
  (fExpectedFormat && fCorrectVersion)%bool.

(** [bool CBitcoinSecret::SetString(const char* pszSecret)] *)
Definition CBitcoinSecret_SetString (self : CBase58Data) (pszSecret : list ascii)
  : result (bool * CBase58Data) :=
  '(ok, self) <- SetString self pszSecret nVersionBytes_default ;;
  Ret ((ok && CBitcoinSecret_IsValid self)%bool, self).

(** [CKey CBitcoinSecret::GetKey()].  [CKey] belongs to key.h; the result
    is what the call hands to [CKey::Set]: the bytes
    [vchData.begin() .. vchData.begin() + 32] and the compression flag. *)
Definition CBitcoinSecret_GetKey (self : CBase58Data) : result (list byte * bool) :=
  if (length (vchData self) <? 32)%nat then AssertFail
  else
    Ret (firstn 32 (vchData self),
         ((32 <? length (vchData self))%nat
          && Byte.eqb (nth 32 (vchData self) x00) x01)%bool).

End Base58Check.

(** ** A concrete chain for the reference vectors

    hash.h and the chain parameters are not part of base58.cpp.  The
    properties below hold for any [Hash] and any [Params]; the reference
    vectors run the code with SHA-256 applied twice, which is the checksum
    the disabled addresses of [CBitcoinAddress::IsValid()] carry (see
    [disabled_addresses_decode]), and with the key-hash version byte 0x19
    those addresses start with.  The script-hash and secret-key bytes of
    [sample_params] are sample values. *)

Module SHA256.

Local Open Scope N_scope.

Definition add32 (x y : N) : N := (x + y) mod 2 ^ 32.
Definition rotr (n x : N) : N :=
  N.lor (N.shiftr x n) (N.shiftl x (32 - n) mod 2 ^ 32).
Definition shr (n x : N) : N := N.shiftr x n.
Definition not32 (x : N) : N := N.lxor x 0xffffffff.

Definition Ch (x y z : N) : N := N.lxor (N.land x y) (N.land (not32 x) z).
Definition Maj (x y z : N) : N :=
  N.lxor (N.lxor (N.land x y) (N.land x z)) (N.land y z).
Definition Sigma0 (x : N) : N := N.lxor (N.lxor (rotr 2 x) (rotr 13 x)) (rotr 22 x).
Definition Sigma1 (x : N) : N := N.lxor (N.lxor (rotr 6 x) (rotr 11 x)) (rotr 25 x).
Definition sigma0 (x : N) : N := N.lxor (N.lxor (rotr 7 x) (rotr 18 x)) (shr 3 x).
Definition sigma1 (x : N) : N := N.lxor (N.lxor (rotr 17 x) (rotr 19 x)) (shr 10 x).

(** The round constants are the first 32 bits of the fractional parts of
    the cube roots of the first 64 primes; the initial state takes the
    square roots of the first 8. *)
Definition is_prime (n : N) : bool :=
  forallb (fun d => negb (n mod d =? 0)) (map N.of_nat (seq 2 (N.to_nat n - 2))).

Definition primes : list N :=
  Eval vm_compute in filter is_prime (map N.of_nat (seq 2 310)).

Fixpoint cube_root (bits : nat) (x r : N) : N :=
  match bits with
  | O => r
  | S b =>
      let r' := r + 2 ^ N.of_nat b in
      cube_root b x (if r' * r' * r' <=? x then r' else r)
  end.

Definition K : list N :=
  Eval vm_compute in map (fun p => cube_root 36 (p * 2 ^ 96) 0 mod 2 ^ 32) primes.

Definition state : Type := (N * N * N * N * N * N * N * N)%type.

Definition H0 : state :=
  Eval vm_compute in
    match map (fun p => N.sqrt (p * 2 ^ 64) mod 2 ^ 32) primes with
    | a :: b :: c :: d :: e :: f :: g :: h :: _ => (a, b, c, d, e, f, g, h)
    | _ => (0, 0, 0, 0, 0, 0, 0, 0)
    end.

(** Padding: the bit 1, zeroes up to 56 modulo 64, the bit length on 8 bytes. *)
Definition be_bytes (n : nat) (x : N) : list N :=
  map (fun i => N.shiftr x (8 * N.of_nat i) mod 256) (rev (seq 0 n)).

Definition pad (msg : list N) : list N :=
  let len := length msg in
  let zeros := ((119 - len mod 64) mod 64)%nat in
  msg ++ [0x80] ++ repeat 0 zeros ++ be_bytes 8 (8 * N.of_nat len).

Definition be_word (bs : list N) : N :=
  fold_left (fun acc b => acc * 256 + b) bs 0.

(** The words of a text, four bytes each. *)
Fixpoint words (n : nat) (bs : list N) : list N :=
  match n with
  | O => []
  | S n' => be_word (firstn 4 bs) :: words n' (skipn 4 bs)
  end.

(** The message schedule, grown from 16 to 64 words. *)
Fixpoint schedule (n : nat) (w : list N) : list N :=
  match n with
  | O => w
  | S n' =>
      let i := length w in
      let x := add32 (add32 (sigma1 (nth (i - 2) w 0)) (nth (i - 7) w 0))
                     (add32 (sigma0 (nth (i - 15) w 0)) (nth (i - 16) w 0)) in
      schedule n' (w ++ [x])
  end.

Definition round (s : state) (kw : N * N) : state :=
  let '(a, b, c, d, e, f, g, h) := s in
  let t1 := add32 (add32 (add32 h (Sigma1 e)) (Ch e f g)) (add32 (fst kw) (snd kw)) in
  let t2 := add32 (Sigma0 a) (Maj a b c) in
  (add32 t1 t2, a, b, c, add32 d t1, e, f, g).

Definition compress (s : state) (block : list N) : state :=
  let w := schedule 48 (words 16 block) in
  let '(a, b, c, d, e, f, g, h) := fold_left round (combine K w) s in
  let '(a0, b0, c0, d0, e0, f0, g0, h0) := s in
  (add32 a0 a, add32 b0 b, add32 c0 c, add32 d0 d,
   add32 e0 e, add32 f0 f, add32 g0 g, add32 h0 h).

Fixpoint blocks (n : nat) (s : state) (bs : list N) : state :=
  match n with
  | O => s
  | S n' => blocks n' (compress s (firstn 64 bs)) (skipn 64 bs)
  end.

Definition byte_of_N (x : N) : byte :=
  match Byte.of_N (x mod 256) with
  | Some b => b
  | None => x00
  end.

Definition digest (msg : list byte) : list byte :=
  let bs := pad (map Byte.to_N msg) in
  let '(a, b, c, d, e, f, g, h) := blocks (length bs / 64) H0 bs in
  map byte_of_N (flat_map (be_bytes 4) [a; b; c; d; e; f; g; h]).

(** SHA-256 applied twice. *)
Definition Hash (msg : list byte) : list byte := digest (digest msg).

End SHA256.

Definition sample_params : CChainParams :=
  {| Base58Prefix := fun t =>
       match t with
       | PUBKEY_ADDRESS => [x19]
       | SCRIPT_ADDRESS => [x05]
       | SECRET_KEY => [x80]
       end |}.

(** The key hash behind the first disabled address. *)
Definition disabled_wallet : CBase58Data :=
  {| vchVersion := [x19];
     vchData := [x59; x79; xb4; xcf; xbc; x62; xd7; x8a; x19; x7c;
                 x21; x5f; x46; xcf; x44; xf1; x1c; x75; xff; x8b] |}.

Definition empty_data : CBase58Data := {| vchVersion := []; vchData := [] |}.

(** ** Reference vectors *)

Example SHA256_abc :
  SHA256.digest [x61; x62; x63]
  = [xba; x78; x16; xbf; x8f; x01; xcf; xea; x41; x41; x40; xde; x5d; xae; x22; x23;
     xb0; x03; x61; xa3; x96; x17; x7a; x9c; xb4; x10; xff; x61; xf2; x00; x15; xad].
Proof. vm_compute. reflexivity. Qed.

Example ToString_disabled_wallet :
  ToString SHA256.Hash disabled_wallet
  = Ret "BCcBZ6B5sTtZPS4FhJ2PaToAayNahvKeKb"%string.
Proof. vm_compute. reflexivity. Qed.

(** Every disabled address is a well-formed address under this checksum:
    version 0x19 and 20 bytes of data. *)
Example disabled_addresses_decode :
  forallb
    (fun s =>
       match SetString SHA256.Hash empty_data (list_ascii_of_string s) 1 with
       | Ret (true, a) => CBitcoinAddress_IsValid_params a sample_params
       | _ => false
       end)
    disabled_addresses = true.
Proof. vm_compute. reflexivity. Qed.

Example CBitcoinSecret_SetString_compressed :
  match CBitcoinSecret_SetString SHA256.Hash sample_params empty_data
          (list_ascii_of_string
             "KwdMAjGmerYanjeui5SHS7JkmpZvVipYvB2LJGU1ZxJwYvP98617") with
  | Ret (ok, s) => (ok, length (vchData s), nth 32 (vchData s) x00)
  | AssertFail => (false, 0%nat, x00)
  end = (true, 33%nat, x01).
Proof. vm_compute. reflexivity. Qed.

Example EncodeBase58_001 :
  EncodeBase58 [x00; x00; x01] = Ret "112"%string.
Proof. reflexivity. Qed.

Example EncodeBase58_hello :
  EncodeBase58 [x48; x65; x6c; x6c; x6f] = Ret "9Ajdvzr"%string.
Proof. reflexivity. Qed.

Example DecodeBase58_hello :
  DecodeBase58_str " 9Ajdvzr  "%string [xff] = Ret (true, [x48; x65; x6c; x6c; x6f]).
Proof. reflexivity. Qed.

Example DecodeBase58_bad :
  DecodeBase58_str "9Ajd vzr"%string [xff] = Ret (false, [xff]).
Proof. reflexivity. Qed.

(** * Properties *)

(** ** Positional values of digit buffers *)

(** The number a big-endian digit buffer denotes. *)
Fixpoint digits_value (base : Z) (buf : list Z) : Z :=
  match buf with
  | [] => 0
  | x :: xs => x * base ^ Z.of_nat (length xs) + digits_value base xs
  end.

Definition in_range (base : Z) (buf : list Z) : Prop :=
  Forall (fun d => 0 <= d < base) buf.

Lemma int32_small z : 0 <= z < 2 ^ 31 -> int32 z = z.
Proof.
  intros Hz. unfold int32.
  rewrite Z.mod_small; lia.
Qed.

Section Radix.

Variables base mult : Z.
Hypothesis base_lo : 1 < base.
Hypothesis base_hi : base <= 256.
Hypothesis mult_pos : 0 < mult.
Hypothesis fits_int : mult * base < 2 ^ 31.

Lemma digits_value_nonneg buf : in_range base buf -> 0 <= digits_value base buf.
Proof.
  induction 1 as [|x xs Hx _ IH]; simpl; [lia|].
  assert (0 <= base ^ Z.of_nat (length xs)) by (apply Z.pow_nonneg; lia).
  nia.
Qed.

Lemma digits_value_bound buf :
  in_range base buf -> digits_value base buf < base ^ Z.of_nat (length buf).
Proof.
  induction 1 as [|x xs Hx _ IH]; simpl length; simpl digits_value; [simpl; lia|].
  rewrite Nat2Z.inj_succ, Z.pow_succ_r by lia.
  nia.
Qed.

(** One iteration of the inner loop, with the machine arithmetic resolved. *)
Lemma mul_add_step c x :
  0 <= c < mult -> 0 <= x < base ->
  let c' := int32 (c + int32 (mult * x)) in
  c' = c + mult * x /\
  uchar (Z.rem c' base) = (c + mult * x) mod base /\
  Z.quot c' base = (c + mult * x) / base /\
  0 <= (c + mult * x) / base < mult.
Proof.
  intros Hc Hx. cbv zeta.
  assert (Hmx : 0 <= mult * x <= mult * (base - 1)) by nia.
  rewrite (int32_small (mult * x)) by nia.
  rewrite int32_small by nia.
  assert (Hs : 0 <= c + mult * x < mult * base) by nia.
  split; [reflexivity|].
  rewrite Z.rem_mod_nonneg, Z.quot_div_nonneg by lia.
  assert (Hm : 0 <= (c + mult * x) mod base < base) by (apply Z.mod_pos_bound; lia).
  split; [unfold uchar; apply Z.mod_small; lia|].
  split; [reflexivity|].
  split; [apply Z.div_pos; lia|].
  apply Z.div_lt_upper_bound; lia.
Qed.

(** The inner loop computes [buf * mult + carry] in place; what does not
    fit the buffer is the carry it leaves. *)
Lemma mul_add_spec buf carry :
  in_range base buf -> 0 <= carry < mult ->
  exists buf' c',
    mul_add base mult buf carry = (buf', c') /\
    length buf' = length buf /\
    in_range base buf' /\
    0 <= c' < mult /\
    digits_value base buf' + c' * base ^ Z.of_nat (length buf)
    = mult * digits_value base buf + carry.
Proof.
  intros Hbuf Hc. induction Hbuf as [|x xs Hx Hxs IH].
  - exists [], carry. simpl. repeat split; try constructor; lia.
  - destruct IH as (xs' & c & Heq & Hlen & Hr & Hcb & Hval).
    destruct (mul_add_step c x Hcb Hx) as (_ & Hd & Hq & Hqb).
    cbv zeta in Hd, Hq.
    eexists; eexists. split.
    { simpl. rewrite Heq. rewrite Hd, Hq. reflexivity. }
    split; [simpl; congruence|].
    split.
    { constructor; [apply Z.mod_pos_bound; lia|exact Hr]. }
    split; [exact Hqb|].
    simpl length. simpl digits_value. rewrite Hlen.
    rewrite Nat2Z.inj_succ, Z.pow_succ_r by lia.
    set (P := base ^ Z.of_nat (length xs)) in *.
    pose proof (Z_div_mod_eq_full (c + mult * x) base) as Hdm.
    nia.
Qed.

(** The carry is zero exactly when the result fits the buffer. *)
Lemma mul_add_fits buf carry :
  in_range base buf -> 0 <= carry < mult ->
  mult * digits_value base buf + carry < base ^ Z.of_nat (length buf) ->
  exists buf',
    mul_add base mult buf carry = (buf', 0) /\
    length buf' = length buf /\
    in_range base buf' /\
    digits_value base buf' = mult * digits_value base buf + carry.
Proof.
  intros Hbuf Hc Hfit.
  destruct (mul_add_spec buf carry Hbuf Hc) as (buf' & c' & Heq & Hlen & Hr & Hcb & Hval).
  pose proof (digits_value_nonneg buf' Hr) as Hnn.
  assert (0 < base ^ Z.of_nat (length buf)) by (apply Z.pow_pos_nonneg; lia).
  assert (c' = 0) by nia. subst c'.
  exists buf'. repeat split; auto; lia.
Qed.

End Radix.

(** ** The two buffer sizes are large enough *)

Lemma pow_size_bound (a b p q : Z) (n m : nat) :
  1 < a -> 1 < b -> 0 < p -> 0 < q ->
  a ^ q < b ^ p ->
  p * Z.of_nat n < q * Z.of_nat m ->
  a ^ Z.of_nat n < b ^ Z.of_nat m.
Proof.
  intros Ha Hb Hp Hq Hpow Hsz.
  apply (Z.pow_lt_mono_l_iff _ _ q); try lia;
    try (apply Z.pow_nonneg; lia).
  rewrite <- !Z.pow_mul_r by lia.
  apply Z.le_lt_trans with (b ^ (p * Z.of_nat n)).
  - rewrite (Z.mul_comm (Z.of_nat n) q), !Z.pow_mul_r by lia.
    apply Z.pow_le_mono_l. split; [apply Z.pow_nonneg; lia | lia].
  - rewrite (Z.mul_comm (Z.of_nat m) q).
    apply Z.pow_lt_mono_r; lia.
Qed.

(** [log(256) / log(58) < 138 / 100]. *)
Lemma b58_size_enough (n : nat) :
  256 ^ Z.of_nat n < 58 ^ Z.of_nat (n * 138 / 100 + 1).
Proof.
  apply (pow_size_bound 256 58 138 100);
    [lia | lia | lia | lia | vm_compute; reflexivity | ].
  rewrite Nat2Z.inj_add, Nat2Z.inj_div, Nat2Z.inj_mul.
  Z.div_mod_to_equations. lia.
Qed.

(** [log(58) / log(256) < 733 / 1000]. *)
Lemma b256_size_enough (n : nat) :
  58 ^ Z.of_nat n < 256 ^ Z.of_nat (n * 733 / 1000 + 1).
Proof.
  apply (pow_size_bound 58 256 733 1000);
    [lia | lia | lia | lia | vm_compute; reflexivity | ].
  rewrite Nat2Z.inj_add, Nat2Z.inj_div, Nat2Z.inj_mul.
  Z.div_mod_to_equations. lia.
Qed.

(** ** Bytes, characters and the alphabet *)

Lemma Z_of_byte_range b : 0 <= Z_of_byte b < 256.
Proof.
  unfold Z_of_byte. pose proof (Byte.to_N_bounded b). lia.
Qed.

Lemma byte_of_Z_of_byte b : byte_of_Z (Z_of_byte b) = b.
Proof.
  unfold byte_of_Z. rewrite Z.mod_small by apply Z_of_byte_range.
  unfold Z_of_byte. rewrite N2Z.id, Byte.of_to_N. reflexivity.
Qed.

Lemma Z_of_byte_x00 b : Z_of_byte b = 0 <-> b = x00.
Proof.
  split; intros H.
  - rewrite <- (byte_of_Z_of_byte b), H. reflexivity.
  - subst b. reflexivity.
Qed.

Lemma is_x00_true b : is_x00 b = true <-> b = x00.
Proof.
  unfold is_x00. split; [apply Byte.byte_dec_bl | apply Byte.byte_dec_lb].
Qed.

Lemma is_x00_false b : is_x00 b = false <-> b <> x00.
Proof.
  rewrite <- is_x00_true. destruct (is_x00 b); split; congruence.
Qed.

Lemma in_range_bytes p : in_range 256 (map Z_of_byte p).
Proof.
  unfold in_range. rewrite Forall_map, Forall_forall.
  intros b _. apply Z_of_byte_range.
Qed.

(** A property of all 58 digits is checked by running it on each. *)
Lemma forall_digits (P : Z -> bool) :
  forallb P (map Z.of_nat (seq 0 58)) = true ->
  forall d, 0 <= d < 58 -> P d = true.
Proof.
  intros H d Hd. rewrite forallb_forall in H. apply H.
  rewrite in_map_iff. exists (Z.to_nat d). split; [lia|].
  apply in_seq. lia.
Qed.

Definition digit_char_ok (d : Z) : bool :=
  (match strchr pszBase58 (pszBase58_at d) with
   | Some n => Z.of_nat n =? d
   | None => false
   end
   && negb (is_nul (pszBase58_at d))
   && negb (isspace (pszBase58_at d))
   && (negb (is_one (pszBase58_at d)) || (d =? 0)))%bool.

Lemma digit_char_facts d :
  0 <= d < 58 ->
  strchr pszBase58 (pszBase58_at d) = Some (Z.to_nat d) /\
  is_nul (pszBase58_at d) = false /\
  isspace (pszBase58_at d) = false /\
  (d <> 0 -> is_one (pszBase58_at d) = false).
Proof.
  intros Hd.
  assert (H : digit_char_ok d = true)
    by (apply forall_digits; [vm_compute; reflexivity | exact Hd]).
  unfold digit_char_ok in H.
  repeat rewrite andb_true_iff in H. destruct H as (((H1 & H2) & H3) & H4).
  rewrite negb_true_iff in H2, H3.
  repeat split; auto.
  - destruct (strchr pszBase58 (pszBase58_at d)) as [n|]; [|discriminate].
    apply Z.eqb_eq in H1. f_equal. lia.
  - intros Hnz. rewrite orb_true_iff, negb_true_iff in H4.
    destruct H4 as [H4|H4]; [exact H4|]. apply Z.eqb_eq in H4. lia.
Qed.

(** What [strchr] finds for a character other than NUL lies inside the
    text, at a position holding that character. *)
Lemma strchr_found s c n :
  strchr s c = Some n -> is_nul c = false ->
  (n < length s)%nat /\ nth n s NUL = c.
Proof.
  revert n. induction s as [|x s IH]; intros n H Hc; simpl in H.
  - rewrite Hc in H. discriminate.
  - destruct (Ascii.eqb_spec x c) as [->|Hne].
    + injection H as <-. simpl. split; [lia | reflexivity].
    + destruct (is_nul x); [discriminate|].
      destruct (strchr s c) as [k|] eqn:Hk; [|discriminate].
      injection H as <-. destruct (IH k eq_refl Hc) as [Hlt Hnth].
      simpl. split; [lia | exact Hnth].
Qed.

Lemma strchr_pszBase58_range c n :
  strchr pszBase58 c = Some n -> is_nul c = false ->
  0 <= Z.of_nat n < 58 /\ pszBase58_at (Z.of_nat n) = c.
Proof.
  intros H Hc. destruct (strchr_found _ _ _ H Hc) as [Hlt Hnth].
  change (length pszBase58) with 58%nat in Hlt.
  split; [lia|]. unfold pszBase58_at. rewrite Nat2Z.id. exact Hnth.
Qed.

(** ** The conversion loops *)

(** Enough room for the bytes still to come keeps the carry at zero; the
    buffer ends up holding the old value shifted by the bytes read. *)
Lemma EncodeBase58_loop_spec p : forall b58,
  in_range 58 b58 ->
  (digits_value 58 b58 + 1) * 256 ^ Z.of_nat (length p)
    <= 58 ^ Z.of_nat (length b58) ->
  exists b58',
    EncodeBase58_loop p b58 = Ret b58' /\
    length b58' = length b58 /\
    in_range 58 b58' /\
    digits_value 58 b58'
    = digits_value 58 b58 * 256 ^ Z.of_nat (length p)
      + digits_value 256 (map Z_of_byte p).
Proof.
  induction p as [|b rest IH]; intros b58 Hr Hroom.
  - exists b58. simpl. repeat split; auto. lia.
  - pose proof (Z_of_byte_range b) as Hb.
    pose proof (digits_value_nonneg 58 ltac:(lia) b58 Hr) as Hnn.
    simpl length in Hroom. rewrite Nat2Z.inj_succ, Z.pow_succ_r in Hroom by lia.
    assert (Hp : 0 < 256 ^ Z.of_nat (length rest)) by (apply Z.pow_pos_nonneg; lia).
    destruct (mul_add_fits 58 256 ltac:(lia) ltac:(lia) ltac:(lia) ltac:(lia)
                b58 (Z_of_byte b) Hr Hb) as (b1 & Heq & Hlen & Hr1 & Hval); [nia|].
    destruct (IH b1 Hr1) as (b2 & Heq2 & Hlen2 & Hr2 & Hval2).
    { rewrite Hlen, Hval. nia. }
    exists b2. split.
    { simpl. rewrite Heq. simpl. exact Heq2. }
    split; [congruence|]. split; [exact Hr2|].
    rewrite Hval2, Hval. simpl length. simpl digits_value.
    rewrite length_map, Nat2Z.inj_succ, Z.pow_succ_r by lia. ring.
Qed.

(** The text the character loop consumes, as digits, and the cursor it
    stops at; [None] when a character outside the alphabet comes first. *)
Fixpoint scan_digits (psz : list ascii) : option (list Z * list ascii) :=
  match psz with
  | [] => Some ([], [])
  | c :: rest =>
      if (is_nul c || isspace c)%bool then Some ([], psz)
      else
        match strchr pszBase58 c with
        | None => None
        | Some ch =>
            match scan_digits rest with
            | None => None
            | Some (ds, t) => Some (Z.of_nat ch :: ds, t)
            end
        end
  end.

Lemma DecodeBase58_loop_spec psz : forall b256,
  in_range 256 b256 ->
  (digits_value 256 b256 + 1) * 58 ^ Z.of_nat (strlen psz)
    <= 256 ^ Z.of_nat (length b256) ->
  match scan_digits psz with
  | None => DecodeBase58_loop psz b256 = Ret None
  | Some (ds, t) =>
      exists b256',
        DecodeBase58_loop psz b256 = Ret (Some (t, b256')) /\
        length b256' = length b256 /\
        in_range 256 b256' /\
        digits_value 256 b256'
        = digits_value 256 b256 * 58 ^ Z.of_nat (length ds)
          + digits_value 58 ds
  end.
Proof.
  induction psz as [|c rest IH]; intros b256 Hr Hroom.
  - simpl. exists b256. repeat split; auto. simpl. lia.
  - cbn [scan_digits DecodeBase58_loop].
    destruct (is_nul c || isspace c)%bool eqn:Hstop.
    + exists b256. repeat split; auto. simpl. lia.
    + apply orb_false_iff in Hstop. destruct Hstop as [Hnul Hsp].
      destruct (strchr pszBase58 c) as [ch|] eqn:Hch; [|cbv iota; reflexivity].
      destruct (strchr_pszBase58_range c ch Hch Hnul) as [Hchr _].
      pose proof (digits_value_nonneg 256 ltac:(lia) b256 Hr) as Hnn.
      cbn [strlen] in Hroom. rewrite Hnul in Hroom.
      rewrite Nat2Z.inj_succ, Z.pow_succ_r in Hroom by lia.
      assert (Hp : 0 < 58 ^ Z.of_nat (strlen rest)) by (apply Z.pow_pos_nonneg; lia).
      destruct (mul_add_fits 256 58 ltac:(lia) ltac:(lia) ltac:(lia) ltac:(lia)
                  b256 (Z.of_nat ch) Hr Hchr) as (b1 & Heq & Hlen & Hr1 & Hval); [nia|].
      rewrite Heq. cbn [Z.eqb].
      specialize (IH b1 Hr1).
      rewrite Hlen, Hval in IH. specialize (IH ltac:(nia)).
      destruct (scan_digits rest) as [[ds t]|]; [|exact IH].
      destruct IH as (b2 & Heq2 & Hlen2 & Hr2 & Hval2).
      exists b2. split; [exact Heq2|]. split; [congruence|]. split; [exact Hr2|].
      rewrite Hval2. simpl length. simpl digits_value.
      rewrite Nat2Z.inj_succ, Z.pow_succ_r by lia. ring.
Qed.

(** ** Buffers without leading zeroes denote numbers uniquely *)

Definition no_leading_zero (buf : list Z) : Prop :=
  match buf with
  | [] => True
  | x :: _ => x <> 0
  end.

Lemma digits_value_repeat_0 base n : digits_value base (repeat 0 n) = 0.
Proof.
  induction n as [|n IH]; simpl; [reflexivity|]. rewrite IH. lia.
Qed.

Lemma in_range_repeat_0 base n : 0 < base -> in_range base (repeat 0 n).
Proof.
  intros Hb. apply Forall_forall. intros x Hx.
  apply repeat_spec in Hx. lia.
Qed.

Lemma skip_zeroes_value base buf :
  digits_value base (skip_zeroes buf) = digits_value base buf.
Proof.
  induction buf as [|x xs IH]; [reflexivity|].
  simpl. destruct (Z.eqb_spec x 0) as [->|Hx]; [rewrite IH; lia | reflexivity].
Qed.

Lemma skip_zeroes_in_range base buf :
  in_range base buf -> in_range base (skip_zeroes buf).
Proof.
  induction 1 as [|x xs Hx Hxs IH]; [constructor|].
  simpl. destruct (x =? 0); [exact IH | constructor; assumption].
Qed.

Lemma skip_zeroes_no_leading_zero buf : no_leading_zero (skip_zeroes buf).
Proof.
  induction buf as [|x xs IH]; [exact I|].
  simpl. destruct (Z.eqb_spec x 0) as [->|Hx]; [exact IH | exact Hx].
Qed.

Lemma skip_zeroes_id buf : no_leading_zero buf -> skip_zeroes buf = buf.
Proof.
  destruct buf as [|x xs]; [reflexivity|].
  simpl. intros Hx. destruct (Z.eqb_spec x 0); [contradiction | reflexivity].
Qed.

Section Canonical.

Variable base : Z.
Hypothesis base_lo : 1 < base.

Lemma digits_value_lower buf :
  in_range base buf -> no_leading_zero buf -> buf <> [] ->
  base ^ Z.of_nat (pred (length buf)) <= digits_value base buf.
Proof.
  intros Hr Hnz Hne. destruct buf as [|x xs]; [contradiction|].
  inversion Hr as [|? ? Hx Hxs]; subst. simpl in Hnz.
  pose proof (digits_value_nonneg base base_lo xs Hxs) as Hnn.
  simpl. assert (0 < base ^ Z.of_nat (length xs)) by (apply Z.pow_pos_nonneg; lia).
  nia.
Qed.

Lemma digits_value_inj_same_length a : forall b,
  length a = length b -> in_range base a -> in_range base b ->
  digits_value base a = digits_value base b -> a = b.
Proof.
  induction a as [|x xs IH]; intros [|y ys] Hlen Ha Hb Hv;
    try discriminate; [reflexivity|].
  inversion Ha as [|? ? Hx Hxs]; inversion Hb as [|? ? Hy Hys]; subst.
  injection Hlen as Hlen. simpl in Hv. rewrite Hlen in Hv.
  pose proof (digits_value_nonneg base base_lo xs Hxs).
  pose proof (digits_value_nonneg base base_lo ys Hys).
  pose proof (digits_value_bound base base_lo xs Hxs) as Bx.
  pose proof (digits_value_bound base base_lo ys Hys) as By'.
  rewrite Hlen in Bx.
  assert (x = y) by nia. subst y.
  f_equal. apply IH; auto. lia.
Qed.

Lemma digits_value_length_le a b :
  in_range base a -> in_range base b -> no_leading_zero a ->
  digits_value base a = digits_value base b ->
  (length a <= length b)%nat.
Proof.
  intros Ha Hb Hnz Hv.
  destruct a as [|x xs]; [simpl; lia|].
  pose proof (digits_value_lower (x :: xs) Ha Hnz ltac:(discriminate)) as Hlo.
  pose proof (digits_value_bound base base_lo b Hb) as Hhi.
  rewrite Hv in Hlo.
  destruct (le_lt_dec (length (x :: xs)) (length b)) as [|Hlt]; [assumption|].
  exfalso.
  assert (base ^ Z.of_nat (length b) <= base ^ Z.of_nat (pred (length (x :: xs))))
    by (apply Z.pow_le_mono_r; simpl in *; lia).
  lia.
Qed.

(** Two buffers in range, neither starting with a zero digit, that denote
    the same number are the same buffer. *)
Lemma digits_value_inj a b :
  in_range base a -> in_range base b ->
  no_leading_zero a -> no_leading_zero b ->
  digits_value base a = digits_value base b -> a = b.
Proof.
  intros Ha Hb Hza Hzb Hv.
  apply digits_value_inj_same_length; auto.
  apply Nat.le_antisymm; apply digits_value_length_le; auto.
Qed.

End Canonical.

(** ** What the two codecs compute *)

Lemma count_skip_zero_bytes vch :
  repeat x00 (count_zero_bytes vch) ++ skip_zero_bytes vch = vch.
Proof.
  induction vch as [|b rest IH]; [reflexivity|].
  simpl. destruct (is_x00 b) eqn:Hb; [|reflexivity].
  apply is_x00_true in Hb. subst b. simpl. f_equal. exact IH.
Qed.

Lemma skip_zero_bytes_no_leading_zero vch :
  no_leading_zero (map Z_of_byte (skip_zero_bytes vch)).
Proof.
  induction vch as [|b rest IH]; [exact I|].
  simpl. destruct (is_x00 b) eqn:Hb; [exact IH|].
  simpl. rewrite Z_of_byte_x00. apply is_x00_false. exact Hb.
Qed.

Lemma zero_bytes_app k r :
  no_leading_zero (map Z_of_byte r) ->
  count_zero_bytes (repeat x00 k ++ r) = k /\
  skip_zero_bytes (repeat x00 k ++ r) = r.
Proof.
  intros Hr. induction k as [|k [IH1 IH2]]; simpl.
  - destruct r as [|b r]; [split; reflexivity|].
    simpl in Hr. rewrite Z_of_byte_x00 in Hr. apply is_x00_false in Hr.
    simpl. rewrite Hr. split; reflexivity.
  - split; congruence.
Qed.

(** [EncodeBase58] never trips its assertion and returns the leading
    ones followed by the base-58 digits of the remaining bytes. *)
Lemma EncodeBase58_spec vch :
  exists b58,
    EncodeBase58 vch
    = Ret (string_of_list_ascii
             (repeat "1"%char (count_zero_bytes vch)
              ++ map pszBase58_at (skip_zeroes b58))) /\
    in_range 58 b58 /\
    digits_value 58 b58 = digits_value 256 (map Z_of_byte (skip_zero_bytes vch)).
Proof.
  unfold EncodeBase58.
  set (p := skip_zero_bytes vch).
  set (m := (length p * 138 / 100 + 1)%nat).
  destruct (EncodeBase58_loop_spec p (repeat 0 m)) as (b58 & Heq & _ & Hr & Hval).
  - apply in_range_repeat_0. lia.
  - rewrite digits_value_repeat_0, repeat_length.
    pose proof (b58_size_enough (length p)). fold m in H. lia.
  - exists b58. rewrite Heq. simpl. split; [reflexivity|]. split; [exact Hr|].
    rewrite Hval, digits_value_repeat_0. lia.
Qed.

(** [DecodeBase58] never trips its assertion; it returns [false] and leaves
    [vch] alone unless the text is spaces, alphabet characters, spaces. *)
Lemma DecodeBase58_spec psz vch :
  let p1 := skip_while leading_space psz in
  let p2 := skip_while is_one p1 in
  match scan_digits p2 with
  | None => DecodeBase58 psz vch = Ret (false, vch)
  | Some (ds, t) =>
      if is_nul (deref (skip_while isspace t)) then
        exists b256,
          DecodeBase58 psz vch
          = Ret (true, repeat x00 (count_while is_one p1)
                       ++ map byte_of_Z (skip_zeroes b256)) /\
          in_range 256 b256 /\
          digits_value 256 b256 = digits_value 58 ds
      else DecodeBase58 psz vch = Ret (false, vch)
  end.
Proof.
  intros p1 p2. unfold DecodeBase58. fold p1. fold p2.
  set (m := (strlen p2 * 733 / 1000 + 1)%nat).
  pose proof (DecodeBase58_loop_spec p2 (repeat 0 m)) as H.
  rewrite digits_value_repeat_0, repeat_length in H.
  specialize (H (in_range_repeat_0 256 m ltac:(lia))).
  pose proof (b256_size_enough (strlen p2)) as Hsz. fold m in Hsz.
  specialize (H ltac:(lia)).
  destruct (scan_digits p2) as [[ds t]|].
  - destruct H as (b256 & Heq & _ & Hr & Hval).
    rewrite Heq. simpl.
    destruct (is_nul (deref (skip_while isspace t))); simpl; [|reflexivity].
    exists b256. split; [reflexivity|]. split; [exact Hr|]. lia.
  - rewrite H. reflexivity.
Qed.

(** ** Scanning text *)

Lemma skip_while_stop cond psz :
  cond (deref psz) = false -> skip_while cond psz = psz.
Proof.
  destruct psz as [|c rest]; [reflexivity|].
  simpl. intros ->. reflexivity.
Qed.

Lemma count_while_stop cond psz :
  cond (deref psz) = false -> count_while cond psz = 0%nat.
Proof.
  destruct psz as [|c rest]; [reflexivity|].
  simpl. intros ->. reflexivity.
Qed.

Lemma skip_while_run cond run psz :
  Forall (fun c => cond c = true) run ->
  skip_while cond (run ++ psz) = skip_while cond psz.
Proof.
  induction 1 as [|c run Hc _ IH]; [reflexivity|].
  simpl. rewrite Hc. exact IH.
Qed.

Lemma count_while_run cond run psz :
  Forall (fun c => cond c = true) run ->
  count_while cond (run ++ psz) = (length run + count_while cond psz)%nat.
Proof.
  induction 1 as [|c run Hc _ IH]; [reflexivity|].
  simpl. rewrite Hc, IH. reflexivity.
Qed.

Lemma ones_are_ones k : Forall (fun c => is_one c = true) (repeat "1"%char k).
Proof.
  apply Forall_forall. intros c Hc. apply repeat_spec in Hc. subst c. reflexivity.
Qed.

(** The character loop stops at [t]: the end of the text, a NUL or a space. *)
Definition stops_scan (t : list ascii) : Prop :=
  (is_nul (deref t) || isspace (deref t))%bool = true.

Lemma scan_digits_stop t : stops_scan t -> scan_digits t = Some ([], t).
Proof.
  destruct t as [|c rest]; [reflexivity|].
  unfold stops_scan. simpl. intros ->. reflexivity.
Qed.

Lemma scan_digits_text ds t :
  in_range 58 ds -> stops_scan t ->
  scan_digits (map pszBase58_at ds ++ t) = Some (ds, t).
Proof.
  intros Hr Ht. induction Hr as [|d ds Hd _ IH].
  - apply scan_digits_stop. exact Ht.
  - destruct (digit_char_facts d Hd) as (Hch & Hnul & Hsp & _).
    cbn [map app scan_digits]. rewrite Hnul, Hsp, Hch, IH. cbn [orb].
    rewrite Z2Nat.id by lia. reflexivity.
Qed.

(** A digit buffer without a leading zero does not print a leading '1'. *)
Lemma digits_text_not_one ds :
  in_range 58 ds -> no_leading_zero ds ->
  is_one (deref (map pszBase58_at ds)) = false /\
  leading_space (deref (map pszBase58_at ds)) = false.
Proof.
  intros Hr Hnz. destruct Hr as [|d ds Hd _]; [split; reflexivity|].
  destruct (digit_char_facts d Hd) as (_ & Hnul & Hsp & Hone).
  simpl in *. unfold leading_space. rewrite Hsp, andb_false_r. auto.
Qed.

Definition all_space (ws : list ascii) : Prop :=
  Forall (fun c => isspace c = true) ws.

Lemma isspace_not_nul c : isspace c = true -> is_nul c = false.
Proof.
  intros Hs. destruct (is_nul c) eqn:Hn; [|reflexivity].
  apply Ascii.eqb_eq in Hn. subst c. discriminate.
Qed.

Lemma all_space_leading ws :
  all_space ws -> Forall (fun c => leading_space c = true) ws.
Proof.
  apply Forall_impl. intros c Hc. unfold leading_space.
  rewrite (isspace_not_nul c Hc), Hc. reflexivity.
Qed.

Lemma all_space_stops ws : all_space ws -> stops_scan ws.
Proof.
  unfold stops_scan. destruct 1 as [|c ws Hc _]; [reflexivity|].
  simpl. rewrite Hc. apply orb_true_r.
Qed.

Lemma all_space_not_one ws : all_space ws -> is_one (deref ws) = false.
Proof.
  destruct 1 as [|c ws Hc _]; [reflexivity|].
  simpl. destruct (is_one c) eqn:H1; [|reflexivity].
  apply Ascii.eqb_eq in H1. subst c. discriminate.
Qed.

Lemma skip_all_space ws : all_space ws -> skip_while isspace ws = [].
Proof.
  intros H. rewrite <- (app_nil_r ws). rewrite skip_while_run; [reflexivity | exact H].
Qed.

Lemma skip_leading_all_space ws : all_space ws -> skip_while leading_space ws = [].
Proof.
  intros H. rewrite <- (app_nil_r ws).
  rewrite skip_while_run; [reflexivity | apply all_space_leading; exact H].
Qed.

(** Decoding spaces, [k] ones, the text of a digit buffer without leading
    zero, spaces: [k] zero bytes, then the same number in base 256. *)
Lemma DecodeBase58_text ws1 k ds ws2 vch :
  all_space ws1 -> in_range 58 ds -> no_leading_zero ds -> all_space ws2 ->
  exists b256,
    DecodeBase58 (ws1 ++ repeat "1"%char k ++ map pszBase58_at ds ++ ws2) vch
    = Ret (true, repeat x00 k ++ map byte_of_Z (skip_zeroes b256)) /\
    in_range 256 b256 /\
    digits_value 256 b256 = digits_value 58 ds.
Proof.
  intros Hw1 Hr Hnz Hw2.
  assert (Hone : is_one (deref (map pszBase58_at ds ++ ws2)) = false).
  { destruct ds as [|d ds].
    - apply all_space_not_one. exact Hw2.
    - apply (digits_text_not_one (d :: ds) Hr Hnz). }
  pose proof (DecodeBase58_spec
                (ws1 ++ repeat "1"%char k ++ map pszBase58_at ds ++ ws2) vch) as H.
  cbv zeta in H.
  rewrite (skip_while_run leading_space ws1) in H by (apply all_space_leading; exact Hw1).
  assert (Hlead : skip_while leading_space (repeat "1"%char k ++ map pszBase58_at ds ++ ws2)
                  = repeat "1"%char k ++ map pszBase58_at ds ++ ws2
                  \/ k = 0%nat /\ ds = []).
  { destruct k as [|k]; [|left; reflexivity].
    destruct ds as [|d ds]; [right; split; reflexivity|].
    left. apply skip_while_stop.
    apply (digits_text_not_one (d :: ds) Hr Hnz). }
  destruct Hlead as [Hlead|[-> ->]].
  - rewrite Hlead in H.
    rewrite (skip_while_run is_one), (count_while_run is_one) in H by apply ones_are_ones.
    rewrite (skip_while_stop is_one), (count_while_stop is_one) in H by exact Hone.
    rewrite scan_digits_text in H by (auto using all_space_stops).
    rewrite skip_all_space in H by exact Hw2.
    rewrite repeat_length, Nat.add_0_r in H. exact H.
  - cbn [repeat map app] in H.
    rewrite skip_leading_all_space in H by exact Hw2.
    simpl in H. exact H.
Qed.

Lemma map_byte_of_Z_of_byte p : map byte_of_Z (map Z_of_byte p) = p.
Proof.
  induction p as [|b p IH]; [reflexivity|].
  simpl. rewrite byte_of_Z_of_byte, IH. reflexivity.
Qed.

(** Decoding what was encoded gives the bytes back. *)
Lemma Base58_round_trip (vch vchRet : list byte) :
  exists str,
    EncodeBase58 vch = Ret str /\
    DecodeBase58_str str vchRet = Ret (true, vch).
Proof.
  destruct (EncodeBase58_spec vch) as (b58 & Henc & Hr58 & Hv58).
  eexists. split; [exact Henc|].
  unfold DecodeBase58_str. rewrite list_ascii_of_string_of_list_ascii.
  set (ds := skip_zeroes b58).
  set (p := skip_zero_bytes vch) in *.
  destruct (DecodeBase58_text [] (count_zero_bytes vch) ds [] vchRet)
    as (b256 & Hdec & Hr256 & Hv256).
  - constructor.
  - apply skip_zeroes_in_range. exact Hr58.
  - apply skip_zeroes_no_leading_zero.
  - constructor.
  - rewrite app_nil_r in Hdec. cbn [app] in Hdec. rewrite Hdec.
    assert (Hcanon : skip_zeroes b256 = map Z_of_byte p).
    { apply (digits_value_inj 256); try lia.
      - apply skip_zeroes_in_range. exact Hr256.
      - apply in_range_bytes.
      - apply skip_zeroes_no_leading_zero.
      - apply skip_zero_bytes_no_leading_zero.
      - rewrite skip_zeroes_value, Hv256. unfold ds.
        rewrite skip_zeroes_value. exact Hv58. }
    rewrite Hcanon, map_byte_of_Z_of_byte. unfold p.
    rewrite count_skip_zero_bytes. reflexivity.
Qed.

(** [DecodeBase58] always returns. *)
Lemma DecodeBase58_returns psz vch :
  exists ok out, DecodeBase58 psz vch = Ret (ok, out).
Proof.
  pose proof (DecodeBase58_spec psz vch) as H. cbv zeta in H.
  destruct (scan_digits _) as [[ds t]|]; [|eauto].
  destruct (is_nul _); [|eauto].
  destruct H as (b256 & H & _). eauto.
Qed.

(** ** Round trip, carry assertions and leading zeroes *)

(** C1.  Round trip of the Base58 codec: for every byte sequence [vch],
    [EncodeBase58] returns a text, and [DecodeBase58] on that text returns
    [true] with exactly [vch] in its output vector, whatever the vector
    held before. *)
Theorem DecodeBase58_EncodeBase58 (vch vchRet : list byte) :
  exists str,
    EncodeBase58 vch = Ret str /\
    DecodeBase58_str str vchRet = Ret (true, vch).
Proof.
  exact (Base58_round_trip vch vchRet).
Qed.

(** C5.  The carry assertions never fire.  In [EncodeBase58] the loop over
    the bytes, run on the buffer of [len * 138 / 100 + 1] zero digits, and in
    [DecodeBase58] the loop over the characters, run on the buffer of
    [strlen * 733 / 1000 + 1] zero bytes, reach their end with every
    [assert(carry == 0)] passed, for every input; hence neither function ever
    ends in [AssertFail]. *)
Theorem carry_assertions_never_fire :
  (forall vch : list byte,
      let p := skip_zero_bytes vch in
      exists b58,
        EncodeBase58_loop p (repeat 0 (length p * 138 / 100 + 1)%nat) = Ret b58)
  /\ (forall psz : list ascii,
      let p := skip_while is_one (skip_while leading_space psz) in
      exists r,
        DecodeBase58_loop p (repeat 0 (strlen p * 733 / 1000 + 1)%nat) = Ret r)
  /\ (forall vch, EncodeBase58 vch <> AssertFail)
  /\ (forall psz vch, DecodeBase58 psz vch <> AssertFail).
Proof.
  assert (Henc : forall p, exists b58,
             EncodeBase58_loop p (repeat 0 (length p * 138 / 100 + 1)%nat) = Ret b58).
  { intros p. set (m := (length p * 138 / 100 + 1)%nat).
    destruct (EncodeBase58_loop_spec p (repeat 0 m)) as (b58 & Heq & _).
    - apply in_range_repeat_0. lia.
    - rewrite digits_value_repeat_0, repeat_length.
      pose proof (b58_size_enough (length p)) as H. fold m in H. lia.
    - exists b58. exact Heq. }
  assert (Hdec : forall p, exists r,
             DecodeBase58_loop p (repeat 0 (strlen p * 733 / 1000 + 1)%nat) = Ret r).
  { intros p. set (m := (strlen p * 733 / 1000 + 1)%nat).
    pose proof (DecodeBase58_loop_spec p (repeat 0 m)) as H.
    rewrite digits_value_repeat_0, repeat_length in H.
    specialize (H (in_range_repeat_0 256 m ltac:(lia))).
    pose proof (b256_size_enough (strlen p)) as Hsz. fold m in Hsz.
    specialize (H ltac:(lia)).
    destruct (scan_digits p) as [[ds t]|].
    - destruct H as (b & Heq & _). eexists. exact Heq.
    - eexists. exact H. }
  split; [intros vch; apply Henc|].
  split; [intros psz; apply Hdec|].
  split.
  - intros vch. unfold EncodeBase58.
    destruct (Henc (skip_zero_bytes vch)) as (b58 & ->). discriminate.
  - intros psz vch. unfold DecodeBase58.
    destruct (Hdec (skip_while is_one (skip_while leading_space psz))) as (r & ->).
    destruct r as [[t b]|]; simpl; [|discriminate].
    destruct (negb (is_nul (deref (skip_while isspace t)))); discriminate.
Qed.

(** The (k+1)-th byte, if present, is not zero. *)
Definition nonzero_head (r : list byte) : Prop :=
  match r with
  | [] => True
  | b :: _ => b <> x00
  end.

(** C6.  Leading zero bytes become leading ones, one for one: if [vch] is
    [k] zero bytes followed by [r], where [r] is empty or starts with a
    nonzero byte, then [EncodeBase58 vch] is [k] characters '1' followed by a
    text [t] that does not start with '1', and [t] is empty when [r] is.  In
    particular the empty sequence encodes to the empty string and [n] zero
    bytes encode to [n] characters '1'. *)
Theorem EncodeBase58_leading_zeroes :
  (forall (k : nat) (r : list byte),
      nonzero_head r ->
      exists t,
        EncodeBase58 (repeat x00 k ++ r)
        = Ret (string_of_list_ascii (repeat "1"%char k ++ t)) /\
        is_one (deref t) = false /\
        (r = [] -> t = []))
  /\ EncodeBase58 [] = Ret EmptyString
  /\ (forall n, EncodeBase58 (repeat x00 n)
                = Ret (string_of_list_ascii (repeat "1"%char n))).
Proof.
  assert (Hmain : forall (k : nat) (r : list byte),
      nonzero_head r ->
      exists t,
        EncodeBase58 (repeat x00 k ++ r)
        = Ret (string_of_list_ascii (repeat "1"%char k ++ t)) /\
        is_one (deref t) = false /\
        (r = [] -> t = [])).
  { intros k r Hr.
    assert (Hnz : no_leading_zero (map Z_of_byte r)).
    { destruct r as [|b r]; [exact I|]. simpl in *. rewrite Z_of_byte_x00. exact Hr. }
    destruct (zero_bytes_app k r Hnz) as [Hcount Hskip].
    destruct (EncodeBase58_spec (repeat x00 k ++ r)) as (b58 & Henc & Hr58 & Hv58).
    rewrite Hcount in Henc. rewrite Hskip in Hv58.
    exists (map pszBase58_at (skip_zeroes b58)).
    split; [exact Henc|]. split.
    - apply digits_text_not_one.
      + apply skip_zeroes_in_range. exact Hr58.
      + apply skip_zeroes_no_leading_zero.
    - intros ->. simpl in Hv58.
      replace (skip_zeroes b58) with (@nil Z); [reflexivity|].
      apply (digits_value_inj 58); try lia.
      + constructor.
      + apply skip_zeroes_in_range. exact Hr58.
      + exact I.
      + apply skip_zeroes_no_leading_zero.
      + rewrite skip_zeroes_value, Hv58. reflexivity. }
  split; [exact Hmain|]. split; [reflexivity|].
  intros n. destruct (Hmain n [] I) as (t & Henc & _ & Ht).
  rewrite (Ht eq_refl) in Henc. rewrite !app_nil_r in Henc. exact Henc.
Qed.

Lemma EncodeBase58_leading_zeroes_witness :
  nonzero_head [x01; x02] /\
  exists t,
    EncodeBase58 (repeat x00 2 ++ [x01; x02])
    = Ret (string_of_list_ascii (repeat "1"%char 2 ++ t)) /\
    is_one (deref t) = false /\
    ([x01; x02] = [] -> t = []).
Proof.
  split.
  - simpl. discriminate.
  - apply (proj1 EncodeBase58_leading_zeroes 2%nat [x01; x02]).
    simpl. discriminate.
Defined.

(** ** Membership in the alphabet *)

(** [c] is one of the 58 characters. *)
Definition in_alphabet (c : ascii) : bool := existsb (Ascii.eqb c) pszBase58.

Lemma in_alphabet_digit c :
  in_alphabet c = true -> exists d, 0 <= d < 58 /\ c = pszBase58_at d.
Proof.
  unfold in_alphabet. rewrite existsb_exists.
  intros (x & Hin & Heq). apply Ascii.eqb_eq in Heq. subst x.
  destruct (In_nth _ _ NUL Hin) as (n & Hn & Hnth).
  change (length pszBase58) with 58%nat in Hn.
  exists (Z.of_nat n). split; [lia|].
  unfold pszBase58_at. rewrite Nat2Z.id. symmetry. exact Hnth.
Qed.

Lemma not_in_alphabet_strchr c :
  in_alphabet c = false -> is_nul c = false -> strchr pszBase58 c = None.
Proof.
  intros Hout Hnul. destruct (strchr pszBase58 c) as [n|] eqn:Hch; [|reflexivity].
  destruct (strchr_found _ _ _ Hch Hnul) as [Hlt Hnth].
  assert (Hin : in_alphabet c = true).
  { unfold in_alphabet. apply existsb_exists. exists c.
    split; [|apply Ascii.eqb_refl]. rewrite <- Hnth. apply nth_In. exact Hlt. }
  congruence.
Qed.

Lemma in_alphabet_not_space c : in_alphabet c = true -> isspace c = false.
Proof.
  intros H. destruct (in_alphabet_digit c H) as (d & Hd & ->).
  apply (digit_char_facts d Hd).
Qed.

Lemma alphabet_text a :
  Forall (fun c => in_alphabet c = true) a ->
  exists ds, in_range 58 ds /\ a = map pszBase58_at ds.
Proof.
  induction 1 as [|c a Hc _ (ds & Hr & ->)].
  - exists []. split; [constructor | reflexivity].
  - destruct (in_alphabet_digit c Hc) as (d & Hd & ->).
    exists (d :: ds). split; [constructor; assumption | reflexivity].
Qed.

(** The leading zero digits of a buffer print as ones. *)
Lemma digits_text_split ds :
  exists k,
    map pszBase58_at ds
    = repeat "1"%char k ++ map pszBase58_at (skip_zeroes ds).
Proof.
  induction ds as [|d ds (k & IH)].
  - exists 0%nat. reflexivity.
  - simpl skip_zeroes. destruct (Z.eqb_spec d 0) as [->|Hd].
    + exists (S k). simpl. f_equal. exact IH.
    + exists 0%nat. reflexivity.
Qed.

Lemma scan_digits_app ds t :
  in_range 58 ds ->
  scan_digits (map pszBase58_at ds ++ t)
  = match scan_digits t with
    | None => None
    | Some (ds', t') => Some (ds ++ ds', t')
    end.
Proof.
  induction 1 as [|d ds Hd _ IH].
  - simpl. destruct (scan_digits t) as [[ds' t']|]; reflexivity.
  - destruct (digit_char_facts d Hd) as (Hch & Hnul & Hsp & _).
    cbn [map app scan_digits]. rewrite Hnul, Hsp, Hch, IH. cbn [orb].
    destruct (scan_digits t) as [[ds' t']|]; [|reflexivity].
    rewrite Z2Nat.id by lia. reflexivity.
Qed.

(** Leading spaces do not matter. *)
Lemma DecodeBase58_leading_space ws psz vch :
  all_space ws -> DecodeBase58 (ws ++ psz) vch = DecodeBase58 psz vch.
Proof.
  intros Hws. unfold DecodeBase58.
  rewrite (skip_while_run leading_space ws) by (apply all_space_leading; exact Hws).
  reflexivity.
Qed.

(** The first element with a property splits a list. *)
Lemma Exists_first {A} (P : A -> bool) l :
  Exists (fun x => P x = true) l ->
  exists good c rest,
    l = good ++ c :: rest /\ Forall (fun x => P x = false) good /\ P c = true.
Proof.
  induction 1 as [x l Hx | x l _ (good & c & rest & -> & Hg & Hc)].
  - exists [], x, l. repeat split; [constructor | exact Hx].
  - destruct (P x) eqn:Hx.
    + exists [], x, (good ++ c :: rest). repeat split; [constructor | exact Hx].
    + exists (x :: good), c, rest. repeat split; [constructor; assumption | exact Hc].
Qed.

(** After a run of spaces the cursor rests on the first other character. *)
Lemma skip_spaces_finds l t :
  Exists (fun c => isspace c = false) l ->
  exists c, In c l /\ isspace c = false /\ deref (skip_while isspace (l ++ t)) = c.
Proof.
  induction 1 as [x l Hx | x l _ (c & Hin & Hc & Hd)].
  - exists x. simpl. rewrite Hx. repeat split; auto.
  - destruct (isspace x) eqn:Hx.
    + exists c. simpl. rewrite Hx. repeat split; auto.
    + exists x. simpl. rewrite Hx. repeat split; auto.
Qed.

(** The characters of a C string: none is the terminator. *)
Definition c_string (s : list ascii) : Prop :=
  Forall (fun c => is_nul c = false) s.

(** A text from which no leading or trailing space can be removed. *)
Definition trimmed (core : list ascii) : Prop :=
  isspace (deref core) = false /\ isspace (last core NUL) = false.

Lemma last_skip_prefix {A} (l1 l2 : list A) d :
  l2 <> [] -> last (l1 ++ l2) d = last l2 d.
Proof.
  intros Hne. induction l1 as [|x l1 IH]; [reflexivity|].
  simpl. rewrite IH. destruct (l1 ++ l2) eqn:E; [|reflexivity].
  apply app_eq_nil in E. destruct E as [_ E]. contradiction.
Qed.

Lemma last_not_space l :
  isspace (last l NUL) = false -> l <> [] ->
  Exists (fun c => isspace c = false) l.
Proof.
  induction l as [|x l IH]; intros Hl Hne; [contradiction|].
  destruct l as [|y l].
  - left. exact Hl.
  - right. apply IH; [exact Hl | discriminate].
Qed.

Lemma DecodeBase58_rejects core ws2 vch :
  c_string core -> trimmed core -> all_space ws2 ->
  Exists (fun c => in_alphabet c = false) core ->
  DecodeBase58 (core ++ ws2) vch = Ret (false, vch).
Proof.
  intros Hcs [Hfirst Hlast] Hws Hbad.
  assert (Hbad' : Exists (fun c => negb (in_alphabet c) = true) core).
  { revert Hbad. apply Exists_impl. intros c ->. reflexivity. }
  destruct (Exists_first _ _ Hbad') as (good & c & rest & Hcore & Hgood & Hc).
  apply negb_true_iff in Hc.
  assert (Hgood' : Forall (fun c => in_alphabet c = true) good).
  { revert Hgood. apply Forall_impl. intros x Hx. apply negb_false_iff in Hx. exact Hx. }
  destruct (alphabet_text good Hgood') as (ds0 & Hr0 & Hds0).
  destruct (digits_text_split ds0) as (k & Hsplit).
  set (ds := skip_zeroes ds0) in *.
  assert (Hr : in_range 58 ds) by (apply skip_zeroes_in_range; exact Hr0).
  assert (Hnz : no_leading_zero ds) by apply skip_zeroes_no_leading_zero.
  assert (Hcnul : is_nul c = false).
  { unfold c_string in Hcs. rewrite Forall_forall in Hcs. apply Hcs.
    rewrite Hcore. apply in_elt. }
  assert (Htext : core ++ ws2
                  = repeat "1"%char k ++ map pszBase58_at ds ++ c :: rest ++ ws2).
  { rewrite Hcore, Hds0, Hsplit. rewrite <- !app_assoc. reflexivity. }
  assert (Hone : is_one (deref (map pszBase58_at ds ++ c :: rest ++ ws2)) = false).
  { destruct ds as [|d ds'].
    - simpl. destruct (is_one c) eqn:H1; [|reflexivity].
      apply Ascii.eqb_eq in H1. subst c. discriminate.
    - apply (digits_text_not_one (d :: ds') Hr Hnz). }
  pose proof (DecodeBase58_spec (core ++ ws2) vch) as H. cbv zeta in H.
  rewrite (skip_while_stop leading_space (core ++ ws2)) in H.
  2:{ unfold leading_space. destruct core as [|x core'].
      - destruct good; discriminate.
      - simpl in *. rewrite Hfirst. apply andb_false_r. }
  rewrite Htext in H.
  rewrite (skip_while_run is_one) in H by apply ones_are_ones.
  rewrite (skip_while_stop is_one) in H by exact Hone.
  rewrite scan_digits_app in H by exact Hr.
  rewrite Htext.
  cbn [scan_digits] in H. rewrite Hcnul in H. cbn [orb] in H.
  destruct (isspace c) eqn:Hsp.
  - (* an embedded space: what follows it is not all space *)
    assert (Hrest : Exists (fun c => isspace c = false) rest).
    { rewrite Hcore in Hlast.
      rewrite last_skip_prefix in Hlast by discriminate.
      destruct rest as [|y rest'].
      - simpl in Hlast. congruence.
      - apply last_not_space; [exact Hlast | discriminate]. }
    destruct (skip_spaces_finds rest ws2 Hrest) as (c' & Hin & _ & Hderef).
    cbn [skip_while] in H. rewrite Hsp in H. rewrite Hderef in H.
    assert (Hc' : is_nul c' = false).
    { unfold c_string in Hcs. rewrite Forall_forall in Hcs. apply Hcs.
      rewrite Hcore. apply in_or_app. right. right. exact Hin. }
    rewrite Hc' in H. exact H.
  - rewrite (not_in_alphabet_strchr c Hc Hcnul) in H. exact H.
Qed.

(** C7.  Which texts [DecodeBase58] accepts.  Let the C string be
    [ws1 ++ core ++ ws2] with [ws1] and [ws2] runs of spaces and [core]
    neither starting nor ending with a space.  If some character of [core] is
    outside the alphabet, or a character that is not a space follows a space
    inside [core], the function returns [false] (and leaves [vch] alone).
    And on every text made of spaces, then alphabet characters only, then
    spaces, it returns [true]. *)
Theorem DecodeBase58_accepts_and_rejects :
  (forall ws1 core ws2 vch,
      all_space ws1 -> all_space ws2 -> c_string core -> trimmed core ->
      (Exists (fun c => in_alphabet c = false) core
       \/ exists x w y c z,
           core = x ++ w :: y ++ c :: z /\ isspace w = true /\ isspace c = false) ->
      DecodeBase58 (ws1 ++ core ++ ws2) vch = Ret (false, vch))
  /\ (forall ws1 a ws2 vch,
      all_space ws1 -> Forall (fun c => in_alphabet c = true) a -> all_space ws2 ->
      exists out, DecodeBase58 (ws1 ++ a ++ ws2) vch = Ret (true, out)).
Proof.
  split.
  - intros ws1 core ws2 vch Hw1 Hw2 Hcs Htrim Hbad.
    rewrite DecodeBase58_leading_space by exact Hw1.
    apply DecodeBase58_rejects; auto.
    destruct Hbad as [Hbad | (x & w & y & c & z & -> & Hw & _)]; [exact Hbad|].
    apply Exists_exists. exists w. split; [apply in_elt|].
    destruct (in_alphabet w) eqn:Hin; [|reflexivity].
    apply in_alphabet_not_space in Hin. congruence.
  - intros ws1 a ws2 vch Hw1 Ha Hw2.
    destruct (alphabet_text a Ha) as (ds0 & Hr0 & ->).
    destruct (digits_text_split ds0) as (k & ->).
    destruct (DecodeBase58_text ws1 k (skip_zeroes ds0) ws2 vch) as (b256 & Hdec & _);
      auto using skip_zeroes_in_range, skip_zeroes_no_leading_zero.
    eexists. rewrite <- app_assoc. exact Hdec.
Qed.

Lemma DecodeBase58_accepts_and_rejects_witness :
  DecodeBase58 (list_ascii_of_string " 9A jd!  ") [xff] = Ret (false, [xff])
  /\ exists out, DecodeBase58 (list_ascii_of_string "  11Ajdvzr ") [xff] = Ret (true, out).
Proof.
  split.
  - apply (proj1 DecodeBase58_accepts_and_rejects
             (list_ascii_of_string " ") (list_ascii_of_string "9A jd!")
             (list_ascii_of_string "  ") [xff]).
    + repeat constructor.
    + repeat constructor.
    + repeat constructor.
    + split; reflexivity.
    + right. exists (list_ascii_of_string "9A"), " "%char, [], "j"%char,
        (list_ascii_of_string "d!").
      repeat split.
  - apply (proj2 DecodeBase58_accepts_and_rejects
             (list_ascii_of_string "  ") (list_ascii_of_string "11Ajdvzr")
             (list_ascii_of_string " ") [xff]).
    + repeat constructor.
    + repeat constructor.
    + repeat constructor.
Defined.

(** ** Base58Check and the containers *)

Lemma bytes_eqb_eq a : forall b, bytes_eqb a b = true <-> a = b.
Proof.
  induction a as [|x a IH]; intros [|y b]; simpl; split; intros H;
    try discriminate; try reflexivity.
  - apply andb_true_iff in H. destruct H as [Hxy Hab].
    apply Byte.byte_dec_bl in Hxy. apply IH in Hab. congruence.
  - injection H as Hx Hb. subst. apply andb_true_iff.
    split; [apply Byte.byte_dec_lb | apply IH]; reflexivity.
Qed.

Lemma bytes_eqb_neq a b : bytes_eqb a b = false <-> a <> b.
Proof.
  rewrite <- bytes_eqb_eq. destruct (bytes_eqb a b); split; congruence.
Qed.

Section Base58Check_properties.

Variable Hash : list byte -> list byte.
Variable Params : CChainParams.

(** The checksum a decoded byte sequence carries, and what it protects. *)
Definition payload_of (decoded : list byte) : list byte :=
  firstn (length decoded - 4) decoded.
Definition checksum_of (decoded : list byte) : list byte :=
  skipn (length decoded - 4) decoded.

(** [DecodeBase58Check] in terms of [DecodeBase58]. *)
Lemma DecodeBase58Check_spec psz vchRet :
  exists ok decoded,
    DecodeBase58 psz vchRet = Ret (ok, decoded) /\
    ((ok = false \/ (length decoded < 4)%nat
      \/ checksum_of decoded <> firstn 4 (Hash (payload_of decoded)))
     /\ DecodeBase58Check Hash psz vchRet = Ret (false, [])
     \/
     (ok = true /\ (4 <= length decoded)%nat
      /\ checksum_of decoded = firstn 4 (Hash (payload_of decoded)))
     /\ DecodeBase58Check Hash psz vchRet = Ret (true, payload_of decoded)).
Proof.
  destruct (DecodeBase58_returns psz vchRet) as (ok & decoded & Hdec).
  exists ok, decoded. split; [exact Hdec|].
  unfold DecodeBase58Check. rewrite Hdec. cbn [bind].
  destruct ok; cbn [negb orb].
  - destruct (Nat.ltb_spec (length decoded) 4) as [Hlt|Hge].
    + left. split; [right; left; exact Hlt | reflexivity].
    + fold (payload_of decoded). fold (checksum_of decoded).
      destruct (bytes_eqb (firstn 4 (Hash (payload_of decoded))) (checksum_of decoded))
        eqn:Hsum; cbn [negb].
      * apply bytes_eqb_eq in Hsum. right. split; [|reflexivity]. auto.
      * apply bytes_eqb_neq in Hsum. left. split; [|reflexivity].
        right. right. congruence.
  - left. split; [left; reflexivity | reflexivity].
Qed.

(** [CBase58Data::SetString] in terms of [DecodeBase58Check]. *)
Lemma SetString_spec self psz nVersionBytes :
  exists rc58 vchTemp,
    DecodeBase58Check Hash psz [] = Ret (rc58, vchTemp) /\
    ((rc58 = false \/ (length vchTemp < nVersionBytes)%nat)
     /\ SetString Hash self psz nVersionBytes
        = Ret (false, {| vchVersion := []; vchData := [] |})
     \/
     (rc58 = true /\ (nVersionBytes <= length vchTemp)%nat)
     /\ SetString Hash self psz nVersionBytes
        = Ret (true, {| vchVersion := firstn nVersionBytes vchTemp;
                        vchData := skipn nVersionBytes vchTemp |})).
Proof.
  destruct (DecodeBase58Check_spec psz []) as (ok & decoded & _ & [[_ H]|[_ H]]);
    unfold SetString; rewrite H; cbn [bind negb orb].
  - exists false, []. split; [reflexivity|]. left. split; [left|]; reflexivity.
  - exists true, (payload_of decoded). split; [reflexivity|].
    destruct (Nat.ltb_spec (length (payload_of decoded)) nVersionBytes) as [Hlt|Hge].
    + left. split; [right; exact Hlt | reflexivity].
    + right. split; [split; [reflexivity | exact Hge] | reflexivity].
Qed.

Lemma Base58Check_round_trip vchIn vchRet :
  (4 <= length (Hash vchIn))%nat ->
  exists str,
    EncodeBase58Check Hash vchIn = Ret str /\
    DecodeBase58Check_str Hash str vchRet = Ret (true, vchIn).
Proof.
  intros Hsize. unfold EncodeBase58Check, DecodeBase58Check_str.
  destruct (Base58_round_trip (vchIn ++ firstn 4 (Hash vchIn)) vchRet)
    as (str & Henc & Hdec).
  exists str. split; [exact Henc|].
  unfold DecodeBase58_str in Hdec. unfold DecodeBase58Check. rewrite Hdec.
  cbn [bind negb orb].
  assert (Hlen4 : length (firstn 4 (Hash vchIn)) = 4%nat)
    by (rewrite length_firstn; lia).
  rewrite length_app, Hlen4.
  replace (length vchIn + 4 - 4)%nat with (length vchIn) by lia.
  rewrite firstn_app, skipn_app, firstn_all, skipn_all, Nat.sub_diag.
  rewrite firstn_O, skipn_O, app_nil_r. cbn [app].
  destruct (Nat.ltb_spec (length vchIn + 4) 4) as [Hlt|_]; [lia|].
  rewrite (proj2 (bytes_eqb_eq _ _) eq_refl). reflexivity.
Qed.

Lemma EncodeBase58_returns vch : exists str, EncodeBase58 vch = Ret str.
Proof.
  destruct (EncodeBase58_spec vch) as (b58 & H & _). eauto.
Qed.

Lemma CBitcoinAddress_IsValid_params_iff self params :
  CBitcoinAddress_IsValid_params self params = true <->
  length (vchData self) = 20%nat /\
  (vchVersion self = Base58Prefix params PUBKEY_ADDRESS \/
   vchVersion self = Base58Prefix params SCRIPT_ADDRESS).
Proof.
  unfold CBitcoinAddress_IsValid_params.
  rewrite andb_true_iff, orb_true_iff, Nat.eqb_eq, !bytes_eqb_eq. reflexivity.
Qed.

(** C2.  Round trip of the Base58Check codec: for every byte sequence
    [vchIn], provided the hash of [vchIn] has the four bytes the checksum
    takes (a [uint256] has 32), [EncodeBase58Check] returns a text and
    [DecodeBase58Check] on that text returns [true] with exactly [vchIn].
    The hash is any function of the bytes. *)
Theorem DecodeBase58Check_EncodeBase58Check (vchIn vchRet : list byte) :
  (4 <= length (Hash vchIn))%nat ->
  exists str,
    EncodeBase58Check Hash vchIn = Ret str /\
    DecodeBase58Check_str Hash str vchRet = Ret (true, vchIn).
Proof.
  exact (Base58Check_round_trip vchIn vchRet).
Qed.

(** C4.  [DecodeBase58Check] returns [false] exactly when [DecodeBase58]
    returns [false], or the decoded bytes are fewer than 4, or their last 4
    bytes differ from the first 4 bytes of the hash of the bytes before them;
    otherwise it returns [true] with the decoded bytes less the last 4. *)
Theorem DecodeBase58Check_fails_exactly_when (psz : list ascii) (vchRet : list byte) :
  exists ok decoded,
    DecodeBase58 psz vchRet = Ret (ok, decoded) /\
    ((ok = false \/ (length decoded < 4)%nat
      \/ checksum_of decoded <> firstn 4 (Hash (payload_of decoded)))
     /\ DecodeBase58Check Hash psz vchRet = Ret (false, [])
     \/
     (ok = true /\ (4 <= length decoded)%nat
      /\ checksum_of decoded = firstn 4 (Hash (payload_of decoded)))
     /\ DecodeBase58Check Hash psz vchRet = Ret (true, payload_of decoded)).
Proof.
  exact (DecodeBase58Check_spec psz vchRet).
Qed.

(** C9.  [CBase58Data::SetString] with [nVersionBytes = N] returns [false]
    exactly when [DecodeBase58Check] returns [false] or decodes fewer than
    [N] bytes; otherwise it returns [true], the version is the first [N]
    decoded bytes and the data the bytes after them. *)
Theorem SetString_splits_version_and_data
  (self : CBase58Data) (psz : list ascii) (N : nat) :
  exists rc58 vchTemp,
    DecodeBase58Check Hash psz [] = Ret (rc58, vchTemp) /\
    ((rc58 = false \/ (length vchTemp < N)%nat)
     /\ (exists self', SetString Hash self psz N = Ret (false, self'))
     \/
     (rc58 = true /\ (N <= length vchTemp)%nat)
     /\ (exists self',
           SetString Hash self psz N = Ret (true, self') /\
           vchVersion self' = firstn N vchTemp /\
           vchData self' = skipn N vchTemp /\
           vchVersion self' ++ vchData self' = vchTemp)).
Proof.
  destruct (SetString_spec self psz N) as (rc58 & vchTemp & Hdec & [[Hc H]|[Hc H]]);
    exists rc58, vchTemp; (split; [exact Hdec|]).
  - left. split; [exact Hc|]. eauto.
  - right. split; [exact Hc|]. eexists. split; [exact H|]. simpl.
    repeat split. apply firstn_skipn.
Qed.

(** C10.  Failure leaves the outputs empty: when [DecodeBase58Check]
    returns [false] its output vector is empty, and when
    [CBase58Data::SetString] returns [false] the version and the data of the
    object are both empty, whatever they held before the call. *)
Theorem failed_decode_leaves_outputs_empty :
  (forall psz vchRet out,
      DecodeBase58Check Hash psz vchRet = Ret (false, out) -> out = [])
  /\ (forall self psz N self',
      SetString Hash self psz N = Ret (false, self') ->
      vchVersion self' = [] /\ vchData self' = []).
Proof.
  split.
  - intros psz vchRet out H.
    destruct (DecodeBase58Check_spec psz vchRet) as (ok & decoded & _ & [[_ E]|[_ E]]);
      rewrite E in H; congruence.
  - intros self psz N self' H.
    destruct (SetString_spec self psz N) as (rc & tmp & _ & [[_ E]|[_ E]]);
      rewrite E in H; [|discriminate].
    injection H as <-. split; reflexivity.
Qed.

(** C8.  [CBitcoinSecret::SetString] returns [true] only if the text
    decodes under Base58Check, its first byte (the version) is the configured
    secret-key prefix, and the bytes after it (the data) are 32 bytes, or 33
    bytes the last of which is 0x01.  [GetKey] then takes the first 32 data
    bytes as the key, and its compression flag is set exactly when the data
    has 33 bytes. *)
Theorem CBitcoinSecret_SetString_succeeds_only_when
  (self self' : CBase58Data) (pszSecret : list ascii) :
  CBitcoinSecret_SetString Hash Params self pszSecret = Ret (true, self') ->
  (exists decoded,
      DecodeBase58Check Hash pszSecret [] = Ret (true, decoded) /\
      vchVersion self' = firstn 1 decoded /\
      vchData self' = skipn 1 decoded)
  /\ (length (vchData self') = 32%nat
      \/ length (vchData self') = 33%nat /\ nth 32 (vchData self') x00 = x01)
  /\ vchVersion self' = Base58Prefix Params SECRET_KEY
  /\ CBitcoinSecret_GetKey self'
     = Ret (firstn 32 (vchData self'), (length (vchData self') =? 33)%nat).
Proof.
  unfold CBitcoinSecret_SetString. intros H.
  destruct (SetString_spec self pszSecret nVersionBytes_default)
    as (rc & tmp & Hdec & [[_ E]|[[-> _] E]]); rewrite E in H; cbn [bind] in H.
  - discriminate.
  - remember (firstn nVersionBytes_default tmp) as ver eqn:Ever.
    remember (skipn nVersionBytes_default tmp) as data eqn:Edata.
    cbn [andb] in H.
    assert (Hvalid : CBitcoinSecret_IsValid Params
                       {| vchVersion := ver; vchData := data |} = true)
      by congruence.
    assert (Hself : self' = {| vchVersion := ver; vchData := data |})
      by congruence.
    subst self'. clear H. cbn [vchData vchVersion].
    split; [exists tmp; subst ver data; repeat split; exact Hdec|].
    unfold CBitcoinSecret_IsValid in Hvalid.
    apply andb_true_iff in Hvalid. destruct Hvalid as [Hfmt Hver].
    apply bytes_eqb_eq in Hver.
    unfold CBitcoinSecret_GetKey.
    cbn [vchData vchVersion] in *.
    assert (Hshape : length data = 32%nat
                     \/ length data = 33%nat /\ nth 32 data x00 = x01).
    { apply orb_true_iff in Hfmt.
      destruct Hfmt as [H32|H33].
      - left. apply Nat.eqb_eq. exact H32.
      - right. apply andb_true_iff in H33. destruct H33 as [H33 Hlast].
        split; [apply Nat.eqb_eq; exact H33 | apply Byte.byte_dec_bl; exact Hlast]. }
    split; [exact Hshape|]. split; [exact Hver|].
    destruct Hshape as [H32|[H33 Hlast]].
    + rewrite H32. reflexivity.
    + rewrite H33, Hlast. reflexivity.
Qed.

(** C3, as amended.  [IsValid(params)] is [true] if and only if the data is
    exactly 20 bytes and the version is the key-hash or the script-hash
    prefix of [params].  The [IsValid()] without argument looks at one thing
    more: it is [true] if and only if, besides, the text form of the address
    is none of the disabled addresses written in the code. *)
Theorem CBitcoinAddress_IsValid_iff :
  (forall self params,
      CBitcoinAddress_IsValid_params self params = true <->
      length (vchData self) = 20%nat /\
      (vchVersion self = Base58Prefix params PUBKEY_ADDRESS \/
       vchVersion self = Base58Prefix params SCRIPT_ADDRESS))
  /\ (forall self,
      exists address b,
        ToString Hash self = Ret address /\
        CBitcoinAddress_IsValid Hash Params self = Ret b /\
        (b = true <->
         ~ In address disabled_addresses /\
         length (vchData self) = 20%nat /\
         (vchVersion self = Base58Prefix Params PUBKEY_ADDRESS \/
          vchVersion self = Base58Prefix Params SCRIPT_ADDRESS))).
Proof.
  split; [apply CBitcoinAddress_IsValid_params_iff|].
  intros self. unfold CBitcoinAddress_IsValid, ToString, EncodeBase58Check.
  destruct (EncodeBase58_returns
              ((vchVersion self ++ vchData self)
               ++ firstn 4 (Hash (vchVersion self ++ vchData self))))
    as (address & ->).
  cbn [bind]. exists address.
  destruct (existsb (String.eqb address) disabled_addresses) eqn:Hdis.
  - exists false. repeat split; try discriminate.
    intros [Hnot _]. exfalso. apply Hnot.
    apply existsb_exists in Hdis. destruct Hdis as (x & Hin & Heq).
    apply String.eqb_eq in Heq. subst x. exact Hin.
  - eexists. split; [reflexivity|]. split; [reflexivity|].
    rewrite CBitcoinAddress_IsValid_params_iff.
    split; [intros H; split; [|exact H] | intros [_ H]; exact H].
    intros Hin.
    assert (existsb (String.eqb address) disabled_addresses = true); [|congruence].
    apply existsb_exists. exists address. split; [exact Hin | apply String.eqb_refl].
Qed.

End Base58Check_properties.

(** ** The properties on the concrete chain *)

Definition sample_payload : list byte := [x00; x01; x02; xfe; xff].

Lemma DecodeBase58Check_EncodeBase58Check_witness :
  (4 <= length (SHA256.Hash sample_payload))%nat /\
  exists str,
    EncodeBase58Check SHA256.Hash sample_payload = Ret str /\
    DecodeBase58Check_str SHA256.Hash str [xff] = Ret (true, sample_payload).
Proof.
  assert (H : (4 <= length (SHA256.Hash sample_payload))%nat)
    by (vm_compute; repeat constructor).
  split; [exact H|].
  exact (DecodeBase58Check_EncodeBase58Check SHA256.Hash sample_payload [xff] H).
Defined.

Lemma failed_decode_leaves_outputs_empty_witness :
  (DecodeBase58Check SHA256.Hash (list_ascii_of_string "11111") [xff; xfe]
   = Ret (false, [])
   /\ @nil byte = [])
  /\ (SetString SHA256.Hash disabled_wallet (list_ascii_of_string "3yQ") 1
      = Ret (false, empty_data)
      /\ vchVersion empty_data = [] /\ vchData empty_data = []).
Proof.
  assert (H1 : DecodeBase58Check SHA256.Hash (list_ascii_of_string "11111") [xff; xfe]
               = Ret (false, [])) by (vm_compute; reflexivity).
  assert (H2 : SetString SHA256.Hash disabled_wallet (list_ascii_of_string "3yQ") 1
               = Ret (false, empty_data)) by (vm_compute; reflexivity).
  split.
  - split; [exact H1|].
    exact (proj1 (failed_decode_leaves_outputs_empty SHA256.Hash) _ _ _ H1).
  - split; [exact H2|].
    exact (proj2 (failed_decode_leaves_outputs_empty SHA256.Hash) _ _ _ _ H2).
Defined.

Definition sample_secret_text : list ascii :=
  list_ascii_of_string "KwdMAjGmerYanjeui5SHS7JkmpZvVipYvB2LJGU1ZxJwYvP98617".

Definition sample_secret : CBase58Data :=
  {| vchVersion := [x80];
     vchData := [x0c; x28; xfc; xa3; x86; xc7; xa2; x27; x60; x0b; x2f; xe5;
                 x0b; x7c; xae; x11; xec; x86; xd3; xbf; x1f; xbe; x47; x1b;
                 xe8; x98; x27; xe1; x9d; x72; xaa; x1d; x01] |}.

Lemma CBitcoinSecret_SetString_succeeds_only_when_witness :
  CBitcoinSecret_SetString SHA256.Hash sample_params empty_data sample_secret_text
  = Ret (true, sample_secret)
  /\ vchVersion sample_secret = Base58Prefix sample_params SECRET_KEY
  /\ CBitcoinSecret_GetKey sample_secret
     = Ret (firstn 32 (vchData sample_secret), true).
Proof.
  assert (H : CBitcoinSecret_SetString SHA256.Hash sample_params empty_data
                sample_secret_text = Ret (true, sample_secret))
    by (vm_compute; reflexivity).
  split; [exact H|].
  pose proof (CBitcoinSecret_SetString_succeeds_only_when
                SHA256.Hash sample_params empty_data sample_secret
                sample_secret_text H) as (_ & _ & Hver & Hkey).
  split; [exact Hver | exact Hkey].
Defined.

(** C3, as stated, fails on [IsValid()]: the wallet behind the first
    disabled address has 20 bytes of data and the key-hash version of the
    chain, and [IsValid()] returns [false] for it. *)
Lemma CBitcoinAddress_IsValid_disabled_wallet :
  length (vchData disabled_wallet) = 20%nat
  /\ vchVersion disabled_wallet = Base58Prefix sample_params PUBKEY_ADDRESS
  /\ CBitcoinAddress_IsValid_params disabled_wallet sample_params = true
  /\ CBitcoinAddress_IsValid SHA256.Hash sample_params disabled_wallet = Ret false.
Proof.
  repeat split; vm_compute; reflexivity.
Qed.

(** * The rest of base58.cpp *)

(** ** The hexadecimal dump of a decoded text *)

(** [ss << std::hex << setw(2) << setfill('0') << (int)c[0]]: a byte as two
    lower-case hexadecimal digits. *)
Definition hex_digit (n : N) : ascii :=
  nth (N.to_nat n) (list_ascii_of_string "0123456789abcdef") NUL.

Definition hex_byte (b : byte) : list ascii :=
  [hex_digit (Byte.to_N b / 16); hex_digit (Byte.to_N b mod 16)].

(** [std::string DecodeBase58(const char* psz)]: the [bool] of the decoder
    is dropped. *)
Definition DecodeBase58_hex (psz : list ascii) : result string :=
  let vch := [] in
  '(_, vch) <- DecodeBase58 psz vch ;;
  Ret (string_of_list_ascii (flat_map hex_byte vch)).

(** ** Ordering of containers *)

(** [operator<] of [std::vector<unsigned char>]: lexicographic, a proper
    prefix first. *)
Fixpoint bytes_ltb (a b : list byte) : bool :=
  match a, b with
  | _, [] => false
  | [], _ :: _ => true
  | x :: a', y :: b' =>
      if Z_of_byte x <? Z_of_byte y then true
      else if Z_of_byte y <? Z_of_byte x then false
      else bytes_ltb a' b'
  end.

(** [int CBase58Data::CompareTo(const CBase58Data& b58) const] *)
Definition CompareTo (self b58 : CBase58Data) : Z :=
  if bytes_ltb (vchVersion self) (vchVersion b58) then -1
  else if bytes_ltb (vchVersion b58) (vchVersion self) then 1
  else if bytes_ltb (vchData self) (vchData b58) then -1
  else if bytes_ltb (vchData b58) (vchData self) then 1
  else 0.

(** ** Destinations and keys *)

(** A [uint160] ([CKeyID], [CScriptID]) as its 20 bytes in memory. *)
Definition uint160 : Type := list byte.

(** [CTxDestination], the variant the visitor dispatches on. *)
Inductive CTxDestination : Type :=
| CNoDestination : CTxDestination
| CKeyID : uint160 -> CTxDestination
| CScriptID : uint160 -> CTxDestination.

(** Modelled from the spec: [CKey] is declared in key.h, which is not part
    of the sources; a secret key is 32 bytes of key material and a
    compression flag, and [begin()], [size()] span the key material. *)
Record CKey : Type := {
  fValid : bool;
  fCompressed : bool;
  keydata : list byte
}.

Section Addresses_and_secrets.

Variable Hash : list byte -> list byte.
Variable Params : CChainParams.

(** [CBase58Data::CBase58Data()] *)
Definition CBase58Data_new : CBase58Data :=
  {| vchVersion := []; vchData := [] |}.

(** [bool CBase58Data::SetString(const std::string& str)] *)
Definition SetString_str (self : CBase58Data) (str : string)
  : result (bool * CBase58Data) :=
  SetString Hash self (list_ascii_of_string str) nVersionBytes_default.

(** [bool CBitcoinAddress::Set(const CKeyID& id)]: 20 bytes are copied. *)
Definition CBitcoinAddress_Set_CKeyID (self : CBase58Data) (id : uint160)
  : bool * CBase58Data :=
  (true, SetData (Base58Prefix Params PUBKEY_ADDRESS) (firstn 20 id)).

(** [bool CBitcoinAddress::Set(const CScriptID& id)] *)
Definition CBitcoinAddress_Set_CScriptID (self : CBase58Data) (id : uint160)
  : bool * CBase58Data :=
  (true, SetData (Base58Prefix Params SCRIPT_ADDRESS) (firstn 20 id)).

(** [bool CBitcoinAddress::Set(const CTxDestination& dest)], through
    [CBitcoinAddressVisitor]. *)
Definition CBitcoinAddress_Set (self : CBase58Data) (dest : CTxDestination)
  : bool * CBase58Data :=
  match dest with
  | CKeyID id => CBitcoinAddress_Set_CKeyID self id
  | CScriptID id => CBitcoinAddress_Set_CScriptID self id
  | CNoDestination => (false, self)
  end.

(** [CTxDestination CBitcoinAddress::Get() const] *)
Definition CBitcoinAddress_Get (self : CBase58Data) : result CTxDestination :=
  valid <- CBitcoinAddress_IsValid Hash Params self ;;
  if negb valid then Ret CNoDestination
  else
    let id := firstn 20 (vchData self) in
    if bytes_eqb (vchVersion self) (Base58Prefix Params PUBKEY_ADDRESS)
    then Ret (CKeyID id)
    else if bytes_eqb (vchVersion self) (Base58Prefix Params SCRIPT_ADDRESS)
    then Ret (CScriptID id)
    else Ret CNoDestination.

(** [bool CBitcoinAddress::GetKeyID(CKeyID& keyID) const]: the [bool] and
    [keyID] afterwards. *)
Definition CBitcoinAddress_GetKeyID (self : CBase58Data) (keyID : uint160)
  : result (bool * uint160) :=
  valid <- CBitcoinAddress_IsValid Hash Params self ;;
  if (negb valid
      || negb (bytes_eqb (vchVersion self) (Base58Prefix Params PUBKEY_ADDRESS)))%bool
  then Ret (false, keyID)
  else Ret (true, firstn 20 (vchData self)).

(** [bool CBitcoinAddress::IsScript() const] *)
Definition CBitcoinAddress_IsScript (self : CBase58Data) : result bool :=
  valid <- CBitcoinAddress_IsValid Hash Params self ;;
  Ret (valid && bytes_eqb (vchVersion self) (Base58Prefix Params SCRIPT_ADDRESS))%bool.

(** [void CBitcoinSecret::SetKey(const CKey& vchSecret)] *)
Definition CBitcoinSecret_SetKey (self : CBase58Data) (vchSecret : CKey)
  : result CBase58Data :=
  if negb (fValid vchSecret) then AssertFail
  else
    let self := SetData (Base58Prefix Params SECRET_KEY) (keydata vchSecret) in
    if fCompressed vchSecret
    then Ret {| vchVersion := vchVersion self; vchData := vchData self ++ [x01] |}
    else Ret self.

(** [bool CBitcoinSecret::SetString(const std::string& strSecret)] *)
Definition CBitcoinSecret_SetString_str (self : CBase58Data) (strSecret : string)
  : result (bool * CBase58Data) :=
  CBitcoinSecret_SetString Hash Params self (list_ascii_of_string strSecret).

End Addresses_and_secrets.

Example DecodeBase58_hex_hello :
  DecodeBase58_hex (list_ascii_of_string "  119Ajdvzr ") = Ret "000048656c6c6f"%string.
Proof. reflexivity. Qed.

Example CBitcoinAddress_Get_zero_hash :
  CBitcoinAddress_Get SHA256.Hash sample_params
    (snd (CBitcoinAddress_Set sample_params CBase58Data_new (CScriptID (repeat x00 20))))
  = Ret (CScriptID (repeat x00 20)).
Proof. vm_compute. reflexivity. Qed.

(** ** More on the Base58 codec *)

Lemma Z_of_byte_of_Z z : 0 <= z < 256 -> Z_of_byte (byte_of_Z z) = z.
Proof.
  intros Hz. unfold byte_of_Z, Z_of_byte. rewrite Z.mod_small by exact Hz.
  destruct (Byte.of_N (Z.to_N z)) as [b|] eqn:Hb.
  - apply Byte.to_of_N in Hb. rewrite Hb. lia.
  - apply Byte.of_N_None_iff in Hb. lia.
Qed.

Lemma map_Z_of_byte_of_Z buf :
  in_range 256 buf -> map Z_of_byte (map byte_of_Z buf) = buf.
Proof.
  induction 1 as [|z buf Hz _ IH]; [reflexivity|].
  simpl. rewrite Z_of_byte_of_Z, IH by exact Hz. reflexivity.
Qed.

Lemma digits_value_zeroes_app base k buf :
  digits_value base (repeat 0 k ++ buf) = digits_value base buf.
Proof.
  induction k as [|k IH]; [reflexivity|]. simpl. rewrite IH. lia.
Qed.

Lemma bytes_value_skip_zero vch :
  digits_value 256 (map Z_of_byte vch)
  = digits_value 256 (map Z_of_byte (skip_zero_bytes vch)).
Proof.
  rewrite <- (count_skip_zero_bytes vch) at 1.
  rewrite map_app, map_repeat. change (Z_of_byte x00) with 0.
  apply digits_value_zeroes_app.
Qed.

Lemma ones_text k : map pszBase58_at (repeat 0 k) = repeat "1"%char k.
Proof.
  rewrite map_repeat. reflexivity.
Qed.

Lemma digit_in_alphabet d : 0 <= d < 58 -> in_alphabet (pszBase58_at d) = true.
Proof.
  intros Hd. unfold in_alphabet. apply existsb_exists.
  exists (pszBase58_at d). split; [|apply Ascii.eqb_refl].
  unfold pszBase58_at. apply nth_In.
  change (length pszBase58) with 58%nat. lia.
Qed.

Lemma digits_text_in_alphabet ds :
  in_range 58 ds -> Forall (fun c => in_alphabet c = true) (map pszBase58_at ds).
Proof.
  intros H. apply Forall_map. revert H. apply Forall_impl.
  intros d Hd. apply digit_in_alphabet. exact Hd.
Qed.

(** The text of [EncodeBase58] as one digit string, leading ones included. *)
Lemma EncodeBase58_digits vch :
  exists ds,
    EncodeBase58 vch = Ret (string_of_list_ascii (map pszBase58_at ds)) /\
    in_range 58 ds /\
    digits_value 58 ds = digits_value 256 (map Z_of_byte vch).
Proof.
  destruct (EncodeBase58_spec vch) as (b58 & Henc & Hr & Hv).
  exists (repeat 0 (count_zero_bytes vch) ++ skip_zeroes b58).
  split; [|split].
  - rewrite map_app, ones_text. exact Henc.
  - apply Forall_app. split.
    + apply in_range_repeat_0. lia.
    + apply skip_zeroes_in_range. exact Hr.
  - rewrite digits_value_zeroes_app, skip_zeroes_value, Hv.
    symmetry. apply bytes_value_skip_zero.
Qed.

(** X1.  The inner loop does what its comment says, "Apply b58 = b58 * 256
    + ch": on a buffer of digits below [base], with a carry below [mult], it
    leaves a buffer of the same length with digits below [base] and a carry
    below [mult] such that buffer and carry together denote
    [mult * buffer + carry]; the [int] never overflows. *)
Theorem mul_add_applies (base mult : Z) (buf : list Z) (carry : Z) :
  1 < base <= 256 -> 0 < mult -> mult * base < 2 ^ 31 ->
  in_range base buf -> 0 <= carry < mult ->
  length (fst (mul_add base mult buf carry)) = length buf /\
  in_range base (fst (mul_add base mult buf carry)) /\
  0 <= snd (mul_add base mult buf carry) < mult /\
  digits_value base (fst (mul_add base mult buf carry))
  + snd (mul_add base mult buf carry) * base ^ Z.of_nat (length buf)
  = mult * digits_value base buf + carry.
Proof.
  intros [Hlo Hhi] Hm Hfit Hbuf Hc.
  destruct (mul_add_spec base mult Hlo Hhi Hm Hfit buf carry Hbuf Hc)
    as (buf' & c' & -> & Hlen & Hr & Hcb & Hval).
  simpl. auto.
Qed.

Lemma mul_add_applies_witness :
  (1 < 58 <= 256 /\ 0 < 256 /\ 256 * 58 < 2 ^ 31 /\
   in_range 58 [0; 1; 2] /\ 0 <= 200 < 256) /\
  mul_add 58 256 [0; 1; 2] 200 = ([4; 36; 16], 0) /\
  digits_value 58 (fst (mul_add 58 256 [0; 1; 2] 200))
  + snd (mul_add 58 256 [0; 1; 2] 200) * 58 ^ Z.of_nat (length [0; 1; 2])
  = 256 * digits_value 58 [0; 1; 2] + 200.
Proof.
  assert (H1 : 1 < 58 <= 256) by lia.
  assert (H2 : 0 < 256) by lia.
  assert (H3 : 256 * 58 < 2 ^ 31) by (vm_compute; reflexivity).
  assert (H4 : in_range 58 [0; 1; 2]) by (repeat constructor; lia).
  assert (H5 : 0 <= 200 < 256) by lia.
  split; [auto|]. split; [reflexivity|].
  apply (mul_add_applies 58 256 [0; 1; 2] 200 H1 H2 H3 H4 H5).
Defined.

(** X2.  [EncodeBase58] converts the number: its text is a string of
    alphabet characters whose positions in the alphabet, read as a base-58
    number, give the bytes read as a base-256 number. *)
Theorem EncodeBase58_same_number (vch : list byte) :
  exists ds,
    EncodeBase58 vch = Ret (string_of_list_ascii (map pszBase58_at ds)) /\
    in_range 58 ds /\
    digits_value 58 ds = digits_value 256 (map Z_of_byte vch).
Proof.
  exact (EncodeBase58_digits vch).
Qed.

(** X3.  Alphabet closure: every character [EncodeBase58] produces is one
    of the 58 characters of [pszBase58]; none is a space or a NUL. *)
Theorem EncodeBase58_in_alphabet (vch : list byte) :
  exists str,
    EncodeBase58 vch = Ret str /\
    Forall (fun c => in_alphabet c = true /\ isspace c = false /\ is_nul c = false)
           (list_ascii_of_string str).
Proof.
  destruct (EncodeBase58_digits vch) as (ds & Henc & Hr & _).
  eexists. split; [exact Henc|].
  rewrite list_ascii_of_string_of_list_ascii.
  apply Forall_map. revert Hr. apply Forall_impl. intros d Hd.
  destruct (digit_char_facts d Hd) as (_ & Hnul & Hsp & _).
  split; [apply digit_in_alphabet; exact Hd | split; assumption].
Qed.

(** X4.  [EncodeBase58] is injective: two byte sequences with the same
    text are the same sequence. *)
Theorem EncodeBase58_injective (a b : list byte) :
  EncodeBase58 a = EncodeBase58 b -> a = b.
Proof.
  intros Heq.
  destruct (Base58_round_trip a []) as (sa & Ha & Hda).
  destruct (Base58_round_trip b []) as (sb & Hb & Hdb).
  assert (sa = sb) by congruence. subst sb. congruence.
Qed.

Lemma EncodeBase58_injective_witness :
  EncodeBase58 [x00; x2a] = EncodeBase58 (repeat x00 1 ++ [x2a]) /\
  [x00; x2a] = repeat x00 1 ++ [x2a].
Proof.
  assert (H : EncodeBase58 [x00; x2a] = EncodeBase58 (repeat x00 1 ++ [x2a]))
    by reflexivity.
  split; [exact H|].
  exact (EncodeBase58_injective [x00; x2a] (repeat x00 1 ++ [x2a]) H).
Defined.

(** Well-formed text: spaces, alphabet characters, spaces. *)
Lemma well_formed_text a :
  Forall (fun c => in_alphabet c = true) a ->
  exists k ds,
    a = repeat "1"%char k ++ map pszBase58_at ds /\
    in_range 58 ds /\ no_leading_zero ds.
Proof.
  intros Ha. destruct (alphabet_text a Ha) as (ds0 & Hr0 & ->).
  destruct (digits_text_split ds0) as (k & ->).
  exists k, (skip_zeroes ds0).
  auto using skip_zeroes_in_range, skip_zeroes_no_leading_zero.
Qed.

(** The bytes [DecodeBase58] returns for [k] ones and a digit string. *)
Lemma DecodeBase58_bytes ws1 k ds ws2 vch :
  all_space ws1 -> in_range 58 ds -> no_leading_zero ds -> all_space ws2 ->
  exists r,
    DecodeBase58 (ws1 ++ repeat "1"%char k ++ map pszBase58_at ds ++ ws2) vch
    = Ret (true, repeat x00 k ++ r) /\
    no_leading_zero (map Z_of_byte r) /\
    digits_value 256 (map Z_of_byte r) = digits_value 58 ds.
Proof.
  intros Hw1 Hr Hnz Hw2.
  destruct (DecodeBase58_text ws1 k ds ws2 vch Hw1 Hr Hnz Hw2)
    as (b256 & Hdec & Hr256 & Hv).
  exists (map byte_of_Z (skip_zeroes b256)). split; [exact Hdec|].
  rewrite map_Z_of_byte_of_Z by (apply skip_zeroes_in_range; exact Hr256).
  split; [apply skip_zeroes_no_leading_zero|].
  rewrite skip_zeroes_value. exact Hv.
Qed.

Lemma bytes_of_same_value r1 r2 :
  no_leading_zero (map Z_of_byte r1) -> no_leading_zero (map Z_of_byte r2) ->
  digits_value 256 (map Z_of_byte r1) = digits_value 256 (map Z_of_byte r2) ->
  r1 = r2.
Proof.
  intros H1 H2 Hv.
  rewrite <- (map_byte_of_Z_of_byte r1), <- (map_byte_of_Z_of_byte r2).
  f_equal. apply (digits_value_inj 256); auto using in_range_bytes. lia.
Qed.

Lemma Base58_text_round_trip (ws1 a ws2 : list ascii) (vch : list byte) :
  all_space ws1 -> Forall (fun c => in_alphabet c = true) a -> all_space ws2 ->
  exists out,
    DecodeBase58 (ws1 ++ a ++ ws2) vch = Ret (true, out) /\
    EncodeBase58 out = Ret (string_of_list_ascii a).
Proof.
  intros Hw1 Ha Hw2.
  destruct (well_formed_text a Ha) as (k & ds & -> & Hr & Hnz).
  destruct (DecodeBase58_bytes ws1 k ds ws2 vch Hw1 Hr Hnz Hw2)
    as (r & Hdec & Hrnz & Hv).
  exists (repeat x00 k ++ r). split; [rewrite <- app_assoc; exact Hdec|].
  destruct (EncodeBase58_spec (repeat x00 k ++ r)) as (b58 & Henc & Hr58 & Hv58).
  destruct (zero_bytes_app k r Hrnz) as [Hcount Hskip].
  rewrite Hcount in Henc. rewrite Hskip in Hv58. rewrite Henc.
  replace (skip_zeroes b58) with ds; [reflexivity|].
  apply (digits_value_inj 58); auto using skip_zeroes_in_range,
    skip_zeroes_no_leading_zero; [lia|].
  rewrite skip_zeroes_value. congruence.
Qed.

(** X5.  Decoding then encoding gives the text back, without the spaces
    around it: for spaces, alphabet characters [a], spaces, [DecodeBase58]
    returns [true] with bytes that [EncodeBase58] turns into exactly [a]. *)
Theorem EncodeBase58_DecodeBase58 (ws1 a ws2 : list ascii) (vch : list byte) :
  all_space ws1 -> Forall (fun c => in_alphabet c = true) a -> all_space ws2 ->
  exists out,
    DecodeBase58 (ws1 ++ a ++ ws2) vch = Ret (true, out) /\
    EncodeBase58 out = Ret (string_of_list_ascii a).
Proof.
  exact (Base58_text_round_trip ws1 a ws2 vch).
Qed.

Lemma EncodeBase58_DecodeBase58_witness :
  exists out,
    DecodeBase58 (list_ascii_of_string "  " ++ list_ascii_of_string "1z9Ajdvzr"
                  ++ list_ascii_of_string " ") [xff]
    = Ret (true, out) /\
    EncodeBase58 out = Ret "1z9Ajdvzr"%string.
Proof.
  apply (EncodeBase58_DecodeBase58
           (list_ascii_of_string "  ") (list_ascii_of_string "1z9Ajdvzr")
           (list_ascii_of_string " ") [xff]); repeat constructor.
Defined.

(** X6.  Spaces around a text are ignored: spaces, alphabet characters
    [a], spaces decode to what [a] alone decodes to, although the working
    buffer is sized from a longer text. *)
Theorem DecodeBase58_ignores_surrounding_space
  (ws1 a ws2 : list ascii) (vch : list byte) :
  all_space ws1 -> Forall (fun c => in_alphabet c = true) a -> all_space ws2 ->
  DecodeBase58 (ws1 ++ a ++ ws2) vch = DecodeBase58 a vch.
Proof.
  intros Hw1 Ha Hw2.
  destruct (well_formed_text a Ha) as (k & ds & -> & Hr & Hnz).
  destruct (DecodeBase58_bytes ws1 k ds ws2 vch Hw1 Hr Hnz Hw2)
    as (r1 & Hd1 & Hz1 & Hv1).
  destruct (DecodeBase58_bytes [] k ds [] vch (Forall_nil _) Hr Hnz (Forall_nil _))
    as (r2 & Hd2 & Hz2 & Hv2).
  cbn [app] in Hd2. rewrite app_nil_r in Hd2.
  rewrite <- app_assoc, Hd1, Hd2.
  rewrite (bytes_of_same_value r1 r2); auto. congruence.
Qed.

Lemma DecodeBase58_ignores_surrounding_space_witness :
  DecodeBase58 (list_ascii_of_string " " ++ list_ascii_of_string "11Ajdvzr"
                ++ list_ascii_of_string "   ") [xff]
  = DecodeBase58 (list_ascii_of_string "11Ajdvzr") [xff].
Proof.
  apply (DecodeBase58_ignores_surrounding_space
           (list_ascii_of_string " ") (list_ascii_of_string "11Ajdvzr")
           (list_ascii_of_string "   ") [xff]); repeat constructor.
Defined.

(** X7.  [DecodeBase58] and its output vector: when it returns [false] the
    vector is as it was, and when it returns [true] the contents do not
    depend on what the vector held. *)
Theorem DecodeBase58_output_vector (psz : list ascii) (vch : list byte) :
  DecodeBase58 psz vch = Ret (false, vch)
  /\ (forall vch', DecodeBase58 psz vch' = Ret (false, vch'))
  \/ exists out, forall vch', DecodeBase58 psz vch' = Ret (true, out).
Proof.
  pose proof (DecodeBase58_spec psz vch) as H. cbv zeta in H.
  destruct (scan_digits _) as [[ds t]|] eqn:Hscan.
  - destruct (is_nul (deref (skip_while isspace t))) eqn:Hend.
    + right. destruct H as (b256 & Hdec & _).
      eexists. intros vch'.
      unfold DecodeBase58 in *.
      destruct (DecodeBase58_loop _ _) as [|[[t' b']|]]; simpl in *;
        try discriminate.
      destruct (negb (is_nul (deref (skip_while isspace t'))));
        [discriminate|]. exact Hdec.
    + left. split; [exact H|]. intros vch'.
      pose proof (DecodeBase58_spec psz vch') as H'. cbv zeta in H'.
      rewrite Hscan, Hend in H'. exact H'.
  - left. split; [exact H|]. intros vch'.
    pose proof (DecodeBase58_spec psz vch') as H'. cbv zeta in H'.
    rewrite Hscan in H'. exact H'.
Qed.

(** X8.  Leading ones become leading zero bytes, one for one: [k] ones
    followed by alphabet characters [t] not starting with '1' decode to [k]
    zero bytes followed by bytes [r] not starting with zero, and [r] is
    empty exactly when [t] is. *)
Theorem DecodeBase58_leading_ones (k : nat) (t : list ascii) (vch : list byte) :
  Forall (fun c => in_alphabet c = true) t -> is_one (deref t) = false ->
  exists r,
    DecodeBase58 (repeat "1"%char k ++ t) vch = Ret (true, repeat x00 k ++ r) /\
    nonzero_head r /\
    (r = [] <-> t = []).
Proof.
  intros Ht Hone.
  destruct (alphabet_text t Ht) as (ds & Hr & ->).
  assert (Hnz : no_leading_zero ds).
  { destruct ds as [|d ds]; [exact I|]. simpl in *. intros ->.
    discriminate. }
  destruct (DecodeBase58_bytes [] k ds [] vch (Forall_nil _) Hr Hnz (Forall_nil _))
    as (r & Hdec & Hrz & Hv).
  cbn [app] in Hdec. rewrite app_nil_r in Hdec.
  exists r. split; [exact Hdec|]. split.
  - destruct r as [|b r]; [exact I|]. simpl in *.
    rewrite Z_of_byte_x00 in Hrz. exact Hrz.
  - split; intros E.
    + subst r. simpl in Hv.
      replace ds with (@nil Z); [reflexivity|].
      apply (digits_value_inj 58);
        [lia | constructor | exact Hr | exact I | exact Hnz | exact Hv].
    + apply map_eq_nil in E. subst ds. simpl in Hv.
      apply (bytes_of_same_value r []); [exact Hrz | exact I | exact Hv].
Qed.

Lemma DecodeBase58_leading_ones_witness :
  exists r,
    DecodeBase58 (repeat "1"%char 3 ++ list_ascii_of_string "2g") [xff]
    = Ret (true, repeat x00 3 ++ r) /\
    nonzero_head r /\
    (r = [] <-> list_ascii_of_string "2g" = []).
Proof.
  apply (DecodeBase58_leading_ones 3 (list_ascii_of_string "2g") [xff]);
    [repeat constructor | reflexivity].
Defined.

(** ** Sizes *)

Lemma string_length_of_list l : String.length (string_of_list_ascii l) = length l.
Proof.
  induction l as [|c l IH]; [reflexivity|]. simpl. rewrite IH. reflexivity.
Qed.

Lemma skip_zeroes_length buf : (length (skip_zeroes buf) <= length buf)%nat.
Proof.
  induction buf as [|x xs IH]; [simpl; lia|].
  simpl. destruct (x =? 0); simpl; lia.
Qed.

Lemma count_zero_bytes_length vch :
  length vch = (count_zero_bytes vch + length (skip_zero_bytes vch))%nat.
Proof.
  rewrite <- (count_skip_zero_bytes vch) at 1.
  rewrite length_app, repeat_length. reflexivity.
Qed.

Lemma skip_while_length cond psz :
  (count_while cond psz + length (skip_while cond psz) = length psz)%nat.
Proof.
  induction psz as [|c rest IH]; [reflexivity|].
  simpl. destruct (cond c); simpl; lia.
Qed.

Lemma scan_digits_facts psz : forall ds t,
  scan_digits psz = Some (ds, t) ->
  in_range 58 ds /\ (length ds + length t = length psz)%nat.
Proof.
  induction psz as [|c rest IH]; intros ds t H.
  - injection H as <- <-. split; [constructor | reflexivity].
  - cbn [scan_digits] in H.
    destruct (is_nul c || isspace c)%bool eqn:Hstop.
    + injection H as <- <-. split; [constructor | reflexivity].
    + apply orb_false_iff in Hstop. destruct Hstop as [Hnul _].
      destruct (strchr pszBase58 c) as [ch|] eqn:Hch; [|discriminate].
      destruct (scan_digits rest) as [[ds' t']|]; [|discriminate].
      injection H as <- <-.
      destruct (IH ds' t' eq_refl) as [Hr Hlen].
      destruct (strchr_pszBase58_range c ch Hch Hnul) as [Hd _].
      split; [constructor; assumption | simpl; lia].
Qed.

(** A buffer without leading zero is no longer than any digit string of a
    smaller base with the same value. *)
Lemma canonical_bytes_short c ds :
  in_range 256 c -> no_leading_zero c -> in_range 58 ds ->
  digits_value 256 c = digits_value 58 ds ->
  (length c <= length ds)%nat.
Proof.
  intros Hc Hnz Hds Hv.
  destruct c as [|x xs]; [simpl; lia|].
  pose proof (digits_value_lower 256 ltac:(lia) (x :: xs) Hc Hnz ltac:(discriminate)) as Hlo.
  pose proof (digits_value_bound 58 ltac:(lia) ds Hds) as Hhi.
  assert (H58 : 58 ^ Z.of_nat (length ds) <= 256 ^ Z.of_nat (length ds))
    by (apply Z.pow_le_mono_l; lia).
  destruct (le_lt_dec (length (x :: xs)) (length ds)) as [|Hlt]; [assumption|].
  exfalso.
  assert (256 ^ Z.of_nat (length ds) <= 256 ^ Z.of_nat (pred (length (x :: xs))))
    by (apply Z.pow_le_mono_r; simpl in *; lia).
  lia.
Qed.

(** X9.  The text of [EncodeBase58] fits the estimate the code allocates
    with: it has at most [size * 138 / 100 + 1] characters. *)
Theorem EncodeBase58_length (vch : list byte) :
  exists str,
    EncodeBase58 vch = Ret str /\
    (String.length str <= length vch * 138 / 100 + 1)%nat.
Proof.
  unfold EncodeBase58.
  set (p := skip_zero_bytes vch).
  set (m := (length p * 138 / 100 + 1)%nat).
  destruct (EncodeBase58_loop_spec p (repeat 0 m)) as (b58 & Heq & Hlen & _).
  - apply in_range_repeat_0. lia.
  - rewrite digits_value_repeat_0, repeat_length.
    pose proof (b58_size_enough (length p)) as H. fold m in H. lia.
  - rewrite Heq. cbn [bind]. eexists. split; [reflexivity|].
    rewrite string_length_of_list, length_app, repeat_length, length_map.
    pose proof (skip_zeroes_length b58) as Hs.
    rewrite Hlen, repeat_length in Hs.
    rewrite (count_zero_bytes_length vch). fold p.
    assert (Hdiv : (count_zero_bytes vch + length p * 138 / 100
                    <= (count_zero_bytes vch + length p) * 138 / 100)%nat).
    { apply Nat.div_le_lower_bound; [lia|].
      pose proof (Nat.Div0.mul_div_le (length p * 138) 100). lia. }
    unfold m in Hs. lia.
Qed.

(** X10.  [DecodeBase58] never returns more bytes than the text has
    characters. *)
Theorem DecodeBase58_length (psz : list ascii) (vch out : list byte) :
  DecodeBase58 psz vch = Ret (true, out) ->
  (length out <= length psz)%nat.
Proof.
  intros Hdec.
  pose proof (DecodeBase58_spec psz vch) as H. cbv zeta in H.
  set (p1 := skip_while leading_space psz) in *.
  set (p2 := skip_while is_one p1) in *.
  destruct (scan_digits p2) as [[ds t]|] eqn:Hscan; [|congruence].
  destruct (is_nul (deref (skip_while isspace t))); [|congruence].
  destruct H as (b256 & Heq & Hr & Hv).
  rewrite Heq in Hdec. injection Hdec as <-.
  destruct (scan_digits_facts p2 ds t Hscan) as [Hds Hlen].
  pose proof (canonical_bytes_short (skip_zeroes b256) ds
                (skip_zeroes_in_range 256 b256 Hr)
                (skip_zeroes_no_leading_zero b256) Hds
                ltac:(rewrite skip_zeroes_value; exact Hv)) as Hshort.
  pose proof (skip_while_length is_one p1) as H1. fold p2 in H1.
  pose proof (skip_while_length leading_space psz) as H2. fold p1 in H2.
  rewrite length_app, repeat_length, length_map. lia.
Qed.

Lemma DecodeBase58_length_witness :
  DecodeBase58 (list_ascii_of_string " 119Ajdvzr") [] =
  Ret (true, [x00; x00; x48; x65; x6c; x6c; x6f])
  /\ (length [x00; x00; x48; x65; x6c; x6c; x6f]
      <= length (list_ascii_of_string " 119Ajdvzr"))%nat.
Proof.
  assert (H : DecodeBase58 (list_ascii_of_string " 119Ajdvzr") [] =
              Ret (true, [x00; x00; x48; x65; x6c; x6c; x6f])) by reflexivity.
  split; [exact H|].
  exact (DecodeBase58_length _ _ _ H).
Defined.

(** ** The hexadecimal dump *)

Lemma hex_dump_length vch : length (flat_map hex_byte vch) = (2 * length vch)%nat.
Proof.
  induction vch as [|b vch IH]; [reflexivity|]. simpl. rewrite IH. lia.
Qed.

(** X11.  The dump of an encoded byte sequence is the sequence in
    hexadecimal, two digits a byte. *)
Theorem DecodeBase58_hex_of_EncodeBase58 (vch : list byte) :
  exists str,
    EncodeBase58 vch = Ret str /\
    DecodeBase58_hex (list_ascii_of_string str)
    = Ret (string_of_list_ascii (flat_map hex_byte vch)) /\
    String.length (string_of_list_ascii (flat_map hex_byte vch))
    = (2 * length vch)%nat.
Proof.
  destruct (Base58_round_trip vch []) as (str & Henc & Hdec).
  exists str. split; [exact Henc|]. split.
  - unfold DecodeBase58_hex. unfold DecodeBase58_str in Hdec.
    rewrite Hdec. reflexivity.
  - rewrite string_length_of_list. apply hex_dump_length.
Qed.

(** X12.  The dump drops the decoder's verdict: for every text
    [DecodeBase58] rejects it is the empty string, as it is for the empty
    text. *)
Theorem DecodeBase58_hex_of_rejected (psz : list ascii) (vch : list byte) :
  DecodeBase58 psz vch = Ret (false, vch) ->
  DecodeBase58_hex psz = Ret EmptyString
  /\ DecodeBase58_hex [] = Ret EmptyString.
Proof.
  intros Hrej. split; [|reflexivity].
  unfold DecodeBase58_hex.
  pose proof (DecodeBase58_spec psz vch) as H. cbv zeta in H.
  pose proof (DecodeBase58_spec psz []) as H0. cbv zeta in H0.
  destruct (scan_digits _) as [[ds t]|].
  - destruct (is_nul (deref (skip_while isspace t))).
    + destruct H as (b & H & _). congruence.
    + rewrite H0. reflexivity.
  - rewrite H0. reflexivity.
Qed.

Lemma DecodeBase58_hex_of_rejected_witness :
  DecodeBase58 (list_ascii_of_string "9Ajd vzr") [xff] = Ret (false, [xff])
  /\ DecodeBase58_hex (list_ascii_of_string "9Ajd vzr") = Ret EmptyString
  /\ DecodeBase58_hex [] = Ret EmptyString.
Proof.
  assert (H : DecodeBase58 (list_ascii_of_string "9Ajd vzr") [xff]
              = Ret (false, [xff])) by reflexivity.
  split; [exact H|].
  exact (DecodeBase58_hex_of_rejected _ _ H).
Defined.

(** ** The order of containers *)

Lemma Z_of_byte_inj x y : Z_of_byte x = Z_of_byte y -> x = y.
Proof.
  intros H. rewrite <- (byte_of_Z_of_byte x), <- (byte_of_Z_of_byte y), H.
  reflexivity.
Qed.

Lemma bytes_ltb_irrefl a : bytes_ltb a a = false.
Proof.
  induction a as [|x a IH]; [reflexivity|].
  simpl. rewrite Z.ltb_irrefl. exact IH.
Qed.

Lemma bytes_ltb_asym a : forall b, bytes_ltb a b = true -> bytes_ltb b a = false.
Proof.
  induction a as [|x a IH]; intros [|y b] H; simpl in *; try congruence.
  destruct (Z.ltb_spec (Z_of_byte x) (Z_of_byte y)) as [Hxy|Hxy];
    destruct (Z.ltb_spec (Z_of_byte y) (Z_of_byte x)) as [Hyx|Hyx];
    try lia; try congruence.
  apply IH. exact H.
Qed.

Lemma bytes_ltb_total a : forall b,
  bytes_ltb a b = false -> bytes_ltb b a = false -> a = b.
Proof.
  induction a as [|x a IH]; intros [|y b] H1 H2; simpl in *;
    try congruence.
  destruct (Z.ltb_spec (Z_of_byte x) (Z_of_byte y)) as [Hxy|Hxy];
    destruct (Z.ltb_spec (Z_of_byte y) (Z_of_byte x)) as [Hyx|Hyx];
    try lia; try congruence.
  assert (x = y) by (apply Z_of_byte_inj; lia). subst y.
  f_equal. apply IH; assumption.
Qed.

Lemma bytes_ltb_trans a : forall b c,
  bytes_ltb a b = true -> bytes_ltb b c = true -> bytes_ltb a c = true.
Proof.
  induction a as [|x a IH]; intros [|y b] [|z c] H1 H2; simpl in *;
    try congruence.
  destruct (Z.ltb_spec (Z_of_byte x) (Z_of_byte y)) as [Hxy|Hxy];
    destruct (Z.ltb_spec (Z_of_byte y) (Z_of_byte x)) as [Hyx|Hyx];
    destruct (Z.ltb_spec (Z_of_byte y) (Z_of_byte z)) as [Hyz|Hyz];
    destruct (Z.ltb_spec (Z_of_byte z) (Z_of_byte y)) as [Hzy|Hzy];
    destruct (Z.ltb_spec (Z_of_byte x) (Z_of_byte z)) as [Hxz|Hxz];
    destruct (Z.ltb_spec (Z_of_byte z) (Z_of_byte x)) as [Hzx|Hzx];
    try lia; try congruence.
  apply (IH b c); assumption.
Qed.

Lemma CompareTo_lt a b :
  CompareTo a b = -1 <->
  bytes_ltb (vchVersion a) (vchVersion b) = true
  \/ vchVersion a = vchVersion b /\ bytes_ltb (vchData a) (vchData b) = true.
Proof.
  unfold CompareTo.
  destruct (bytes_ltb (vchVersion a) (vchVersion b)) eqn:H1.
  - split; auto.
  - destruct (bytes_ltb (vchVersion b) (vchVersion a)) eqn:H2.
    + split; [discriminate|]. intros [H|[H _]]; [discriminate|].
      rewrite H, bytes_ltb_irrefl in H2. discriminate.
    + pose proof (bytes_ltb_total _ _ H1 H2) as Hv.
      destruct (bytes_ltb (vchData a) (vchData b)) eqn:H3.
      * split; auto.
      * split.
        -- destruct (bytes_ltb (vchData b) (vchData a)); discriminate.
        -- intros [H|[_ H]]; discriminate.
Qed.

(** X13.  [CompareTo] is zero exactly on equal containers: same version
    bytes and same data bytes. *)
Theorem CompareTo_zero_iff_equal (a b : CBase58Data) :
  CompareTo a b = 0 <->
  vchVersion a = vchVersion b /\ vchData a = vchData b.
Proof.
  unfold CompareTo. split.
  - destruct (bytes_ltb (vchVersion a) (vchVersion b)) eqn:H1; [discriminate|].
    destruct (bytes_ltb (vchVersion b) (vchVersion a)) eqn:H2; [discriminate|].
    destruct (bytes_ltb (vchData a) (vchData b)) eqn:H3; [discriminate|].
    destruct (bytes_ltb (vchData b) (vchData a)) eqn:H4; [discriminate|].
    intros _. split; apply bytes_ltb_total; assumption.
  - intros [-> ->]. rewrite !bytes_ltb_irrefl. reflexivity.
Qed.

(** X14.  [CompareTo] is antisymmetric: swapping the two containers
    negates the result, which is always -1, 0 or 1. *)
Theorem CompareTo_swap (a b : CBase58Data) :
  CompareTo b a = - CompareTo a b /\ -1 <= CompareTo a b <= 1.
Proof.
  unfold CompareTo.
  destruct (bytes_ltb (vchVersion a) (vchVersion b)) eqn:H1.
  - rewrite (bytes_ltb_asym _ _ H1). split; [reflexivity | lia].
  - destruct (bytes_ltb (vchVersion b) (vchVersion a)) eqn:H2;
      [split; [reflexivity | lia]|].
    destruct (bytes_ltb (vchData a) (vchData b)) eqn:H3.
    + rewrite (bytes_ltb_asym _ _ H3). split; [reflexivity | lia].
    + destruct (bytes_ltb (vchData b) (vchData a)); split; (reflexivity || lia).
Qed.

(** X15.  [CompareTo] is transitive: if [a] is before [b] and [b] before
    [c], then [a] is before [c]. *)
Theorem CompareTo_transitive (a b c : CBase58Data) :
  CompareTo a b = -1 -> CompareTo b c = -1 -> CompareTo a c = -1.
Proof.
  rewrite !CompareTo_lt.
  intros [Hab|[Eab Hab]] [Hbc|[Ebc Hbc]].
  - left. apply (bytes_ltb_trans _ _ _ Hab Hbc).
  - left. rewrite <- Ebc. exact Hab.
  - left. rewrite Eab. exact Hbc.
  - right. split; [congruence|]. apply (bytes_ltb_trans _ _ _ Hab Hbc).
Qed.

Lemma CompareTo_transitive_witness :
  (CompareTo {| vchVersion := [x05]; vchData := [xff; xff] |}
             {| vchVersion := [x19]; vchData := [x01] |} = -1
   /\ CompareTo {| vchVersion := [x19]; vchData := [x01] |}
                {| vchVersion := [x19]; vchData := [x01; x00] |} = -1)
  /\ CompareTo {| vchVersion := [x05]; vchData := [xff; xff] |}
               {| vchVersion := [x19]; vchData := [x01; x00] |} = -1.
Proof.
  assert (H1 : CompareTo {| vchVersion := [x05]; vchData := [xff; xff] |}
                         {| vchVersion := [x19]; vchData := [x01] |} = -1)
    by reflexivity.
  assert (H2 : CompareTo {| vchVersion := [x19]; vchData := [x01] |}
                         {| vchVersion := [x19]; vchData := [x01; x00] |} = -1)
    by reflexivity.
  split; [split; assumption|].
  exact (CompareTo_transitive _ _ _ H1 H2).
Defined.

(** ** Containers, addresses and secrets round trip *)

Section More_properties.

Variable Hash : list byte -> list byte.
Variable Params : CChainParams.

Lemma firstn_skipn_prefix {A} (v d : list A) :
  firstn (length v) (v ++ d) = v /\ skipn (length v) (v ++ d) = d.
Proof.
  rewrite firstn_app, skipn_app, firstn_all, skipn_all, Nat.sub_diag.
  rewrite firstn_O, skipn_O, app_nil_r. split; reflexivity.
Qed.

Lemma container_round_trip self other N :
  length (vchVersion self) = N ->
  (4 <= length (Hash (vchVersion self ++ vchData self)))%nat ->
  exists str,
    ToString Hash self = Ret str /\
    SetString Hash other (list_ascii_of_string str) N = Ret (true, self).
Proof.
  intros HN Hh. destruct self as [v d]. cbn [vchVersion vchData] in *.
  destruct (Base58Check_round_trip Hash (v ++ d) [] Hh) as (str & Henc & Hdec).
  exists str. split; [exact Henc|].
  unfold DecodeBase58Check_str in Hdec. unfold SetString.
  rewrite Hdec. cbn [bind negb orb].
  destruct (Nat.ltb_spec (length (v ++ d)) N) as [Hlt|_].
  - rewrite length_app in Hlt. lia.
  - subst N. destruct (firstn_skipn_prefix v d) as [-> ->]. reflexivity.
Qed.

Lemma CBitcoinAddress_IsValid_cases self :
  exists address,
    ToString Hash self = Ret address /\
    CBitcoinAddress_IsValid Hash Params self
    = Ret (negb (existsb (String.eqb address) disabled_addresses)
           && CBitcoinAddress_IsValid_params self Params)%bool.
Proof.
  unfold CBitcoinAddress_IsValid.
  destruct (EncodeBase58_returns
              ((vchVersion self ++ vchData self)
               ++ firstn 4 (Hash (vchVersion self ++ vchData self))))
    as (address & Haddr).
  exists address. unfold ToString, EncodeBase58Check. rewrite Haddr.
  split; [reflexivity|]. cbn [bind].
  destruct (existsb (String.eqb address) disabled_addresses); reflexivity.
Qed.

(** What [Get] returns, by the verdict of [IsValid()]. *)
Lemma CBitcoinAddress_Get_cases self :
  exists valid,
    CBitcoinAddress_IsValid Hash Params self = Ret valid /\
    (valid = false /\ CBitcoinAddress_Get Hash Params self = Ret CNoDestination
     \/
     valid = true /\ length (vchData self) = 20%nat /\
     (vchVersion self = Base58Prefix Params PUBKEY_ADDRESS /\
      CBitcoinAddress_Get Hash Params self = Ret (CKeyID (vchData self))
      \/
      vchVersion self <> Base58Prefix Params PUBKEY_ADDRESS /\
      vchVersion self = Base58Prefix Params SCRIPT_ADDRESS /\
      CBitcoinAddress_Get Hash Params self = Ret (CScriptID (vchData self)))).
Proof.
  destruct (CBitcoinAddress_IsValid_cases self) as (address & _ & Hv).
  eexists. split; [exact Hv|].
  unfold CBitcoinAddress_Get. rewrite Hv. cbn [bind].
  destruct (negb (existsb (String.eqb address) disabled_addresses)
            && CBitcoinAddress_IsValid_params self Params)%bool eqn:Hvalid.
  - right. split; [reflexivity|].
    apply andb_true_iff in Hvalid. destruct Hvalid as [_ Hp].
    apply CBitcoinAddress_IsValid_params_iff in Hp. destruct Hp as [Hlen Hver].
    split; [exact Hlen|]. cbn [negb].
    rewrite <- Hlen, firstn_all.
    destruct (bytes_eqb (vchVersion self) (Base58Prefix Params PUBKEY_ADDRESS)) eqn:Hpk.
    + left. apply bytes_eqb_eq in Hpk. auto.
    + right. apply bytes_eqb_neq in Hpk.
      destruct Hver as [Hver|Hver]; [contradiction|].
      rewrite (proj2 (bytes_eqb_eq _ _) Hver). auto.
  - left. split; reflexivity.
Qed.

(** X16.  Round trip of the container: the text [ToString] gives for a
    container whose version has [N] bytes is taken back by [SetString] with
    [nVersionBytes = N], which returns [true] and restores the version and
    the data, provided the hash has the 4 bytes the checksum takes. *)
Theorem SetString_ToString (self other : CBase58Data) (N : nat) :
  length (vchVersion self) = N ->
  (4 <= length (Hash (vchVersion self ++ vchData self)))%nat ->
  exists str,
    ToString Hash self = Ret str /\
    SetString Hash other (list_ascii_of_string str) N = Ret (true, self).
Proof.
  exact (container_round_trip self other N).
Qed.

(** X17.  [Get] returns [CNoDestination] exactly when [IsValid()] is
    false.  When [IsValid()] is true the data is 20 bytes and [Get] returns
    it whole, as a [CKeyID] if the version is the key-hash prefix and as a
    [CScriptID] otherwise; the last [else] of [Get] is never reached. *)
Theorem CBitcoinAddress_Get_by_validity (self : CBase58Data) :
  exists valid,
    CBitcoinAddress_IsValid Hash Params self = Ret valid /\
    (valid = false /\ CBitcoinAddress_Get Hash Params self = Ret CNoDestination
     \/
     valid = true /\ length (vchData self) = 20%nat /\
     (vchVersion self = Base58Prefix Params PUBKEY_ADDRESS /\
      CBitcoinAddress_Get Hash Params self = Ret (CKeyID (vchData self))
      \/
      vchVersion self <> Base58Prefix Params PUBKEY_ADDRESS /\
      vchVersion self = Base58Prefix Params SCRIPT_ADDRESS /\
      CBitcoinAddress_Get Hash Params self = Ret (CScriptID (vchData self)))).
Proof.
  exact (CBitcoinAddress_Get_cases self).
Qed.

(** X18.  [GetKeyID] agrees with [Get]: it returns [true] with a key id
    exactly when [Get] returns that [CKeyID], and when it returns [false] it
    leaves [keyID] as it was. *)
Theorem CBitcoinAddress_GetKeyID_agrees (self : CBase58Data) (keyID : uint160) :
  exists ok out,
    CBitcoinAddress_GetKeyID Hash Params self keyID = Ret (ok, out) /\
    (ok = true <-> CBitcoinAddress_Get Hash Params self = Ret (CKeyID out)) /\
    (ok = false -> out = keyID).
Proof.
  destruct (CBitcoinAddress_Get_cases self)
    as (valid & Hv & [[-> Hget]|(-> & Hlen & [[Hpk Hget]|(Hpk & Hsc & Hget)])]);
    unfold CBitcoinAddress_GetKeyID; rewrite Hv; cbn [bind negb orb].
  - exists false, keyID. split; [reflexivity|]. split; [|reflexivity].
    rewrite Hget. split; discriminate.
  - rewrite (proj2 (bytes_eqb_eq _ _) Hpk). cbn [negb].
    exists true, (firstn 20 (vchData self)). split; [reflexivity|].
    rewrite <- Hlen, firstn_all. split; [|discriminate].
    split; [intros _; exact Hget | reflexivity].
  - rewrite (proj2 (bytes_eqb_neq _ _) Hpk). cbn [negb].
    exists false, keyID. split; [reflexivity|]. split; [|reflexivity].
    rewrite Hget. split; discriminate.
Qed.

(** X19.  [IsScript] agrees with [Get] when the two address prefixes
    differ: it is [true] exactly when [Get] returns a [CScriptID]. *)
Theorem CBitcoinAddress_IsScript_agrees (self : CBase58Data) :
  Base58Prefix Params PUBKEY_ADDRESS <> Base58Prefix Params SCRIPT_ADDRESS ->
  exists b,
    CBitcoinAddress_IsScript Hash Params self = Ret b /\
    (b = true <->
     CBitcoinAddress_Get Hash Params self = Ret (CScriptID (vchData self))).
Proof.
  intros Hdiff.
  destruct (CBitcoinAddress_Get_cases self)
    as (valid & Hv & [[-> Hget]|(-> & Hlen & [[Hpk Hget]|(Hpk & Hsc & Hget)])]);
    unfold CBitcoinAddress_IsScript; rewrite Hv; cbn [bind andb].
  - exists false. split; [reflexivity|]. rewrite Hget. split; discriminate.
  - assert (Hne : vchVersion self <> Base58Prefix Params SCRIPT_ADDRESS)
      by congruence.
    rewrite (proj2 (bytes_eqb_neq _ _) Hne).
    exists false. split; [reflexivity|]. rewrite Hget. split; discriminate.
  - rewrite (proj2 (bytes_eqb_eq _ _) Hsc).
    exists true. split; [reflexivity|]. rewrite Hget. split; reflexivity.
Qed.

(** X20.  [Set] refuses [CNoDestination], returning [false] and leaving
    the address as it was; for a key or script id of 20 bytes it returns
    [true] and the address passes [IsValid(Params())], with the id as its
    data. *)
Theorem CBitcoinAddress_Set_valid (self : CBase58Data) :
  CBitcoinAddress_Set Params self CNoDestination = (false, self)
  /\ (forall id, length id = 20%nat ->
        let r := CBitcoinAddress_Set Params self (CKeyID id) in
        fst r = true /\ vchData (snd r) = id /\
        vchVersion (snd r) = Base58Prefix Params PUBKEY_ADDRESS /\
        CBitcoinAddress_IsValid_params (snd r) Params = true)
  /\ (forall id, length id = 20%nat ->
        let r := CBitcoinAddress_Set Params self (CScriptID id) in
        fst r = true /\ vchData (snd r) = id /\
        vchVersion (snd r) = Base58Prefix Params SCRIPT_ADDRESS /\
        CBitcoinAddress_IsValid_params (snd r) Params = true).
Proof.
  split; [reflexivity|].
  split; intros id Hid;
    assert (Hf : firstn 20 id = id) by (rewrite <- Hid; apply firstn_all);
    unfold CBitcoinAddress_Set, CBitcoinAddress_Set_CKeyID,
      CBitcoinAddress_Set_CScriptID, SetData;
    cbv zeta; cbn [fst snd vchData vchVersion]; rewrite Hf;
    (split; [reflexivity|]); (split; [reflexivity|]); (split; [reflexivity|]);
    apply CBitcoinAddress_IsValid_params_iff; cbn [vchData vchVersion]; auto.
Qed.

End More_properties.

Section Round_trips.

Variable Hash : list byte -> list byte.
Variable Params : CChainParams.

(** An address with 20 bytes of data and one of the two prefixes, through
    its text and back. *)
Lemma address_round_trip (other : CBase58Data) (t : Base58Type) (id : uint160) :
  t = PUBKEY_ADDRESS \/ t = SCRIPT_ADDRESS ->
  length id = 20%nat ->
  length (Base58Prefix Params t) = nVersionBytes_default ->
  (4 <= length (Hash (Base58Prefix Params t ++ id)))%nat ->
  let addr := SetData (Base58Prefix Params t) id in
  exists str,
    ToString Hash addr = Ret str /\
    SetString_str Hash other str = Ret (true, addr) /\
    CBitcoinAddress_IsValid Hash Params addr
    = Ret (negb (existsb (String.eqb str) disabled_addresses)).
Proof.
  intros Ht Hid Hpre Hh addr.
  destruct (container_round_trip Hash addr other nVersionBytes_default Hpre Hh)
    as (str & Hstr & Hset).
  exists str. split; [exact Hstr|]. split; [exact Hset|].
  destruct (CBitcoinAddress_IsValid_cases Hash Params addr) as (str' & Hstr' & Hv).
  assert (str' = str) by congruence. subst str'.
  rewrite Hv.
  replace (CBitcoinAddress_IsValid_params addr Params) with true;
    [rewrite andb_true_r; reflexivity|].
  symmetry. apply CBitcoinAddress_IsValid_params_iff.
  unfold addr, SetData. cbn [vchData vchVersion].
  split; [exact Hid|]. destruct Ht as [-> | ->]; auto.
Qed.

(** X21.  A key hash through the address text and back: [Set] on a
    20-byte [CKeyID], [ToString], then [SetString] on a fresh address restore
    the same address, and [Get] on it returns the [CKeyID] again - unless the
    text is one of the disabled addresses, for which [Get] returns
    [CNoDestination].  The key-hash prefix is one byte and the hash has the 4
    bytes the checksum takes. *)
Theorem CBitcoinAddress_key_round_trip (self other : CBase58Data) (id : uint160) :
  length id = 20%nat ->
  length (Base58Prefix Params PUBKEY_ADDRESS) = nVersionBytes_default ->
  (4 <= length (Hash (Base58Prefix Params PUBKEY_ADDRESS ++ id)))%nat ->
  exists addr str,
    CBitcoinAddress_Set Params self (CKeyID id) = (true, addr) /\
    ToString Hash addr = Ret str /\
    SetString_str Hash other str = Ret (true, addr) /\
    CBitcoinAddress_Get Hash Params addr
    = Ret (if existsb (String.eqb str) disabled_addresses
           then CNoDestination else CKeyID id).
Proof.
  intros Hid Hpre Hh.
  assert (Hf : firstn 20 id = id) by (rewrite <- Hid; apply firstn_all).
  destruct (address_round_trip other PUBKEY_ADDRESS id (or_introl eq_refl) Hid Hpre Hh)
    as (str & Hstr & Hset & Hvalid).
  exists (SetData (Base58Prefix Params PUBKEY_ADDRESS) id), str.
  split; [cbn; unfold CBitcoinAddress_Set_CKeyID; rewrite Hf; reflexivity|].
  split; [exact Hstr|]. split; [exact Hset|].
  unfold CBitcoinAddress_Get. rewrite Hvalid. cbn [bind].
  destruct (existsb (String.eqb str) disabled_addresses); cbn [negb];
    [reflexivity|].
  unfold SetData. cbn [vchData vchVersion].
  rewrite (proj2 (bytes_eqb_eq _ _) eq_refl), Hf. reflexivity.
Qed.

(** X22.  A script hash through the address text and back: as for a key
    hash, and [Get] returns the [CScriptID] again when the script-hash prefix
    differs from the key-hash prefix. *)
Theorem CBitcoinAddress_script_round_trip (self other : CBase58Data) (id : uint160) :
  length id = 20%nat ->
  length (Base58Prefix Params SCRIPT_ADDRESS) = nVersionBytes_default ->
  Base58Prefix Params SCRIPT_ADDRESS <> Base58Prefix Params PUBKEY_ADDRESS ->
  (4 <= length (Hash (Base58Prefix Params SCRIPT_ADDRESS ++ id)))%nat ->
  exists addr str,
    CBitcoinAddress_Set Params self (CScriptID id) = (true, addr) /\
    ToString Hash addr = Ret str /\
    SetString_str Hash other str = Ret (true, addr) /\
    CBitcoinAddress_Get Hash Params addr
    = Ret (if existsb (String.eqb str) disabled_addresses
           then CNoDestination else CScriptID id).
Proof.
  intros Hid Hpre Hdiff Hh.
  assert (Hf : firstn 20 id = id) by (rewrite <- Hid; apply firstn_all).
  destruct (address_round_trip other SCRIPT_ADDRESS id (or_intror eq_refl) Hid Hpre Hh)
    as (str & Hstr & Hset & Hvalid).
  exists (SetData (Base58Prefix Params SCRIPT_ADDRESS) id), str.
  split; [cbn; unfold CBitcoinAddress_Set_CScriptID; rewrite Hf; reflexivity|].
  split; [exact Hstr|]. split; [exact Hset|].
  unfold CBitcoinAddress_Get. rewrite Hvalid. cbn [bind].
  destruct (existsb (String.eqb str) disabled_addresses); cbn [negb];
    [reflexivity|].
  unfold SetData. cbn [vchData vchVersion].
  rewrite (proj2 (bytes_eqb_neq _ _) Hdiff).
  rewrite (proj2 (bytes_eqb_eq _ _) eq_refl), Hf. reflexivity.
Qed.

(** The payload [SetKey] builds. *)
Definition secret_data (vchSecret : CKey) : list byte :=
  keydata vchSecret ++ (if fCompressed vchSecret then [x01] else []).

(** X23.  A secret key through its text and back: for a valid key of 32
    bytes, [SetKey], [ToString], then [CBitcoinSecret::SetString] on a fresh
    object return [true] with the same object, and [GetKey] hands out the 32
    key bytes and the compression flag that went in.  The secret-key prefix
    is one byte and the hash has the 4 bytes the checksum takes. *)
Theorem CBitcoinSecret_round_trip (self other : CBase58Data) (vchSecret : CKey) :
  fValid vchSecret = true ->
  length (keydata vchSecret) = 32%nat ->
  length (Base58Prefix Params SECRET_KEY) = nVersionBytes_default ->
  (4 <= length (Hash (Base58Prefix Params SECRET_KEY ++ secret_data vchSecret)))%nat ->
  exists secret str,
    CBitcoinSecret_SetKey Params self vchSecret = Ret secret /\
    ToString Hash secret = Ret str /\
    CBitcoinSecret_SetString_str Hash Params other str = Ret (true, secret) /\
    CBitcoinSecret_GetKey secret
    = Ret (keydata vchSecret, fCompressed vchSecret).
Proof.
  intros Hvalid Hlen Hpre Hh.
  set (secret := {| vchVersion := Base58Prefix Params SECRET_KEY;
                    vchData := secret_data vchSecret |}).
  destruct (container_round_trip Hash secret other nVersionBytes_default Hpre Hh)
    as (str & Hstr & Hset).
  assert (Hkey : CBitcoinSecret_SetKey Params self vchSecret = Ret secret).
  { unfold CBitcoinSecret_SetKey, secret, secret_data, SetData.
    rewrite Hvalid. cbn [negb vchVersion vchData].
    destruct (fCompressed vchSecret); [reflexivity|].
    rewrite app_nil_r. reflexivity. }
  assert (Hshape : CBitcoinSecret_IsValid Params secret = true
                   /\ CBitcoinSecret_GetKey secret
                      = Ret (keydata vchSecret, fCompressed vchSecret)).
  { assert (Hfirst : forall s, firstn 32 (keydata vchSecret ++ s) = keydata vchSecret).
    { intros s. pose proof (proj1 (firstn_skipn_prefix (keydata vchSecret) s)) as Hp.
      rewrite Hlen in Hp. exact Hp. }
    assert (Hnth : nth 32 (keydata vchSecret ++ [x01]) x00 = x01).
    { rewrite app_nth2 by lia. rewrite Hlen. reflexivity. }
    unfold CBitcoinSecret_IsValid, CBitcoinSecret_GetKey, secret, secret_data.
    cbn [vchVersion vchData].
    rewrite (proj2 (bytes_eqb_eq _ _) eq_refl), andb_true_r.
    rewrite Hfirst, length_app, Hlen.
    destruct (fCompressed vchSecret).
    - rewrite Hnth. split; reflexivity.
    - split; reflexivity. }
  destruct Hshape as [Hok Hget].
  exists secret, str. split; [exact Hkey|]. split; [exact Hstr|].
  split; [|exact Hget].
  unfold CBitcoinSecret_SetString_str, CBitcoinSecret_SetString.
  rewrite Hset. cbn [bind andb]. rewrite Hok. reflexivity.
Qed.

(** X24.  When [CBitcoinSecret::SetString] returns [false] the object is
    either emptied, because [CBase58Data::SetString] failed, or it holds the
    version and data of a text that decoded under Base58Check but is no valid
    secret: it is not cleared in that case. *)
Theorem CBitcoinSecret_SetString_false
  (self self' : CBase58Data) (pszSecret : list ascii) :
  CBitcoinSecret_SetString Hash Params self pszSecret = Ret (false, self') ->
  (exists s, SetString Hash self pszSecret nVersionBytes_default = Ret (false, s))
  /\ vchVersion self' = [] /\ vchData self' = []
  \/
  (exists decoded,
      DecodeBase58Check Hash pszSecret [] = Ret (true, decoded) /\
      (nVersionBytes_default <= length decoded)%nat /\
      vchVersion self' ++ vchData self' = decoded)
  /\ CBitcoinSecret_IsValid Params self' = false.
Proof.
  unfold CBitcoinSecret_SetString. intros H.
  destruct (SetString_spec Hash self pszSecret nVersionBytes_default)
    as (rc & tmp & Hdec & [[_ E]|[[-> Hge] E]]); rewrite E in H; cbn [bind] in H.
  - left. injection H as <-. split; [eauto|]. split; reflexivity.
  - right. cbn [andb] in H.
    remember (firstn nVersionBytes_default tmp) as ver eqn:Ever.
    remember (skipn nVersionBytes_default tmp) as data eqn:Edata.
    assert (Hself : self' = {| vchVersion := ver; vchData := data |}) by congruence.
    assert (Hinv : CBitcoinSecret_IsValid Params
                     {| vchVersion := ver; vchData := data |} = false) by congruence.
    subst self'. split; [|exact Hinv].
    exists tmp. split; [exact Hdec|]. split; [exact Hge|].
    cbn [vchVersion vchData]. subst ver data. apply firstn_skipn.
Qed.

End Round_trips.

(** ** The round trips on the concrete chain *)

Definition sample_container : CBase58Data :=
  {| vchVersion := [x04; x88]; vchData := [x00; xb2; x1e] |}.

Lemma SetString_ToString_witness :
  (length (vchVersion sample_container) = 2%nat /\
   (4 <= length (SHA256.Hash (vchVersion sample_container
                              ++ vchData sample_container)))%nat) /\
  exists str,
    ToString SHA256.Hash sample_container = Ret str /\
    SetString SHA256.Hash disabled_wallet (list_ascii_of_string str) 2
    = Ret (true, sample_container).
Proof.
  assert (H1 : length (vchVersion sample_container) = 2%nat) by reflexivity.
  assert (H2 : (4 <= length (SHA256.Hash (vchVersion sample_container
                                          ++ vchData sample_container)))%nat)
    by (vm_compute; repeat constructor).
  split; [split; assumption|].
  exact (SetString_ToString SHA256.Hash sample_container disabled_wallet 2 H1 H2).
Defined.

Lemma CBitcoinAddress_IsScript_agrees_witness :
  Base58Prefix sample_params PUBKEY_ADDRESS <> Base58Prefix sample_params SCRIPT_ADDRESS
  /\ exists b,
    CBitcoinAddress_IsScript SHA256.Hash sample_params disabled_wallet = Ret b /\
    (b = true <->
     CBitcoinAddress_Get SHA256.Hash sample_params disabled_wallet
     = Ret (CScriptID (vchData disabled_wallet))).
Proof.
  assert (H : Base58Prefix sample_params PUBKEY_ADDRESS
              <> Base58Prefix sample_params SCRIPT_ADDRESS) by discriminate.
  split; [exact H|].
  exact (CBitcoinAddress_IsScript_agrees SHA256.Hash sample_params disabled_wallet H).
Defined.

Definition zero_hash : uint160 := repeat x00 20.

Lemma CBitcoinAddress_Set_valid_witness :
  length zero_hash = 20%nat /\
  CBitcoinAddress_IsValid_params
    (snd (CBitcoinAddress_Set sample_params empty_data (CKeyID zero_hash)))
    sample_params = true.
Proof.
  assert (H : length zero_hash = 20%nat) by reflexivity.
  split; [exact H|].
  exact (proj2 (proj2 (proj2
           (proj1 (proj2 (CBitcoinAddress_Set_valid sample_params empty_data))
                  zero_hash H)))).
Defined.

Lemma CBitcoinAddress_key_round_trip_witness :
  (length zero_hash = 20%nat /\
   length (Base58Prefix sample_params PUBKEY_ADDRESS) = nVersionBytes_default /\
   (4 <= length (SHA256.Hash (Base58Prefix sample_params PUBKEY_ADDRESS
                              ++ zero_hash)))%nat) /\
  exists addr str,
    CBitcoinAddress_Set sample_params empty_data (CKeyID zero_hash) = (true, addr) /\
    ToString SHA256.Hash addr = Ret str /\
    SetString_str SHA256.Hash disabled_wallet str = Ret (true, addr) /\
    CBitcoinAddress_Get SHA256.Hash sample_params addr
    = Ret (if existsb (String.eqb str) disabled_addresses
           then CNoDestination else CKeyID zero_hash).
Proof.
  assert (H1 : length zero_hash = 20%nat) by reflexivity.
  assert (H2 : length (Base58Prefix sample_params PUBKEY_ADDRESS)
               = nVersionBytes_default) by reflexivity.
  assert (H3 : (4 <= length (SHA256.Hash (Base58Prefix sample_params PUBKEY_ADDRESS
                                          ++ zero_hash)))%nat)
    by (vm_compute; repeat constructor).
  split; [repeat split; assumption|].
  exact (CBitcoinAddress_key_round_trip SHA256.Hash sample_params
           empty_data disabled_wallet zero_hash H1 H2 H3).
Defined.

Lemma CBitcoinAddress_script_round_trip_witness :
  (length zero_hash = 20%nat /\
   length (Base58Prefix sample_params SCRIPT_ADDRESS) = nVersionBytes_default /\
   Base58Prefix sample_params SCRIPT_ADDRESS <> Base58Prefix sample_params PUBKEY_ADDRESS /\
   (4 <= length (SHA256.Hash (Base58Prefix sample_params SCRIPT_ADDRESS
                              ++ zero_hash)))%nat) /\
  exists addr str,
    CBitcoinAddress_Set sample_params empty_data (CScriptID zero_hash) = (true, addr) /\
    ToString SHA256.Hash addr = Ret str /\
    SetString_str SHA256.Hash disabled_wallet str = Ret (true, addr) /\
    CBitcoinAddress_Get SHA256.Hash sample_params addr
    = Ret (if existsb (String.eqb str) disabled_addresses
           then CNoDestination else CScriptID zero_hash).
Proof.
  assert (H1 : length zero_hash = 20%nat) by reflexivity.
  assert (H2 : length (Base58Prefix sample_params SCRIPT_ADDRESS)
               = nVersionBytes_default) by reflexivity.
  assert (H3 : Base58Prefix sample_params SCRIPT_ADDRESS
               <> Base58Prefix sample_params PUBKEY_ADDRESS) by discriminate.
  assert (H4 : (4 <= length (SHA256.Hash (Base58Prefix sample_params SCRIPT_ADDRESS
                                          ++ zero_hash)))%nat)
    by (vm_compute; repeat constructor).
  split; [repeat split; assumption|].
  exact (CBitcoinAddress_script_round_trip SHA256.Hash sample_params
           empty_data disabled_wallet zero_hash H1 H2 H3 H4).
Defined.

Definition sample_key : CKey :=
  {| fValid := true; fCompressed := true;
     keydata := firstn 32 (vchData sample_secret) |}.

Lemma CBitcoinSecret_round_trip_witness :
  (fValid sample_key = true /\
   length (keydata sample_key) = 32%nat /\
   length (Base58Prefix sample_params SECRET_KEY) = nVersionBytes_default /\
   (4 <= length (SHA256.Hash (Base58Prefix sample_params SECRET_KEY
                              ++ secret_data sample_key)))%nat) /\
  exists secret str,
    CBitcoinSecret_SetKey sample_params empty_data sample_key = Ret secret /\
    ToString SHA256.Hash secret = Ret str /\
    CBitcoinSecret_SetString_str SHA256.Hash sample_params disabled_wallet str
    = Ret (true, secret) /\
    CBitcoinSecret_GetKey secret = Ret (keydata sample_key, fCompressed sample_key).
Proof.
  assert (H1 : fValid sample_key = true) by reflexivity.
  assert (H2 : length (keydata sample_key) = 32%nat) by reflexivity.
  assert (H3 : length (Base58Prefix sample_params SECRET_KEY)
               = nVersionBytes_default) by reflexivity.
  assert (H4 : (4 <= length (SHA256.Hash (Base58Prefix sample_params SECRET_KEY
                                          ++ secret_data sample_key)))%nat)
    by (vm_compute; repeat constructor).
  split; [repeat split; assumption|].
  exact (CBitcoinSecret_round_trip SHA256.Hash sample_params
           empty_data disabled_wallet sample_key H1 H2 H3 H4).
Defined.

Lemma CBitcoinSecret_SetString_false_witness :
  CBitcoinSecret_SetString SHA256.Hash sample_params empty_data
    (list_ascii_of_string "BCcBZ6B5sTtZPS4FhJ2PaToAayNahvKeKb")
  = Ret (false, disabled_wallet)
  /\ vchData disabled_wallet <> []
  /\ CBitcoinSecret_IsValid sample_params disabled_wallet = false.
Proof.
  assert (H : CBitcoinSecret_SetString SHA256.Hash sample_params empty_data
                (list_ascii_of_string "BCcBZ6B5sTtZPS4FhJ2PaToAayNahvKeKb")
              = Ret (false, disabled_wallet)) by (vm_compute; reflexivity).
  split; [exact H|]. split; [discriminate|].
  destruct (CBitcoinSecret_SetString_false SHA256.Hash sample_params
              empty_data disabled_wallet _ H) as [(_ & _ & Hd)|[_ Hinv]].
  - discriminate Hd.
  - exact Hinv.
Defined.

(** X25.  A text of alphabet characters that [DecodeBase58Check] accepts is
    the text [EncodeBase58Check] gives for the payload it returns: no two
    such texts carry the same payload. *)
Theorem EncodeBase58Check_DecodeBase58Check
  (Hash : list byte -> list byte) (a : list ascii) (vchRet payload : list byte) :
  Forall (fun c => in_alphabet c = true) a ->
  DecodeBase58Check Hash a vchRet = Ret (true, payload) ->
  EncodeBase58Check Hash payload = Ret (string_of_list_ascii a).
Proof.
  intros Ha Hdec.
  destruct (DecodeBase58Check_spec Hash a vchRet)
    as (ok & decoded & Hd & [[_ E]|[(Hok & Hge & Hsum) E]]); [congruence|].
  assert (payload = payload_of decoded) by congruence. subst payload ok.
  destruct (Base58_text_round_trip [] a [] vchRet (Forall_nil _) Ha (Forall_nil _))
    as (out & Hd' & Henc).
  cbn [app] in Hd'. rewrite app_nil_r in Hd'.
  assert (out = decoded) by congruence. subst out.
  unfold EncodeBase58Check. rewrite <- Hsum.
  unfold payload_of, checksum_of. rewrite firstn_skipn. exact Henc.
Qed.

Lemma EncodeBase58Check_DecodeBase58Check_witness :
  Forall (fun c => in_alphabet c = true)
         (list_ascii_of_string "BN361g4da5japPhLx7wWqc11HxiVPbdyeF")
  /\ EncodeBase58Check SHA256.Hash
       (x19 :: [xc0; xe8; x9c; x88; x70; x8b; x8b; x8a; xf1; xfb;
                x1e; x90; x9b; x0c; x7c; x06; xd3; xa2; x16; x6b])
     = Ret "BN361g4da5japPhLx7wWqc11HxiVPbdyeF"%string.
Proof.
  assert (H1 : Forall (fun c => in_alphabet c = true)
                 (list_ascii_of_string "BN361g4da5japPhLx7wWqc11HxiVPbdyeF"))
    by (repeat constructor).
  assert (H2 : DecodeBase58Check SHA256.Hash
                 (list_ascii_of_string "BN361g4da5japPhLx7wWqc11HxiVPbdyeF") [xff]
               = Ret (true, x19 :: [xc0; xe8; x9c; x88; x70; x8b; x8b; x8a; xf1; xfb;
                                    x1e; x90; x9b; x0c; x7c; x06; xd3; xa2; x16; x6b]))
    by (vm_compute; reflexivity).
  split; [exact H1|].
  exact (EncodeBase58Check_DecodeBase58Check SHA256.Hash _ [xff] _ H1 H2).
Defined.
